(** * Plumbing Attendance Agent: the document model, the calendar grid and
      the monthly totals of [src/app/layout.tsx]

    The page component keeps one document ([AppData]) in React state and
    replaces it through functional updates ([setData (prev => ...)]).  Each
    update is embedded as a pure function from the previous document to the
    next one.  The JavaScript platform pieces the code relies on ([Date],
    [String.prototype.trim], [Math.round], [Math.random], [Date.now]) are
    modelled as follows.

    - Strings are sequences of code units; [string] holds the code units
      below 256, compared unit by unit as JavaScript does.
    - A [Date] is its time value (milliseconds since the epoch, UTC).  The
      local time zone is a fixed offset [tz] in minutes east of UTC, passed
      explicitly, so the zone has no daylight-saving changes.  Calendar
      fields follow the day-number arithmetic of ECMAScript (proleptic
      Gregorian calendar); [new Date(year, month, date)] reads a year
      argument 0..99 as 1900..1999, as the platform does.  The range limit
      of time values is outside the model.
    - [Math.random] and [Date.now] are draws supplied by the environment.
    - A daily rate is a whole number ([Math.round] of the form's input).
      Day counts and amounts in the totals are doubles holding whole
      numbers; sums and products round as doubles do ([roundInt]). *)

From Stdlib Require Import ZArith String Ascii Bool List Lia Lqa ZifyNat Permutation QArith Qround.
Import ListNotations.

Local Open Scope string_scope.
Local Open Scope list_scope.
Local Open Scope Z_scope.

(* ================================================================== *)
(** * Calendar arithmetic behind [Date] *)
(* ================================================================== *)

Module Calendar.

Definition msPerDay : Z := 86400000.
Definition msPerMinute : Z := 60000.

Definition isLeap (y : Z) : bool :=
  (y mod 4 =? 0) && (negb (y mod 100 =? 0) || (y mod 400 =? 0)).

(** Day number of January 1st of year [y] (day 0 is 1970-01-01). *)
Definition DayFromYear (y : Z) : Z :=
  365 * (y - 1970) + (y - 1969) / 4 - (y - 1901) / 100 + (y - 1601) / 400.

Definition DaysInYear (y : Z) : Z := if isLeap y then 366 else 365.

(** The year containing day number [n]: the largest [y] with
    [DayFromYear y <= n].  The estimate is off by at most one. *)
Definition YearFromDay (n : Z) : Z :=
  let est := 1970 + (n * 400) / 146097 in
  if n <? DayFromYear est then est - 1
  else if DayFromYear (est + 1) <=? n then est + 1
  else est.

(** Day within the year at which month [m] (0 = January) starts. *)
Definition monthStart (m : Z) (leap : bool) : Z :=
  let l := if leap then 1 else 0 in
  if m =? 0 then 0
  else if m =? 1 then 31
  else if m =? 2 then 59 + l
  else if m =? 3 then 90 + l
  else if m =? 4 then 120 + l
  else if m =? 5 then 151 + l
  else if m =? 6 then 181 + l
  else if m =? 7 then 212 + l
  else if m =? 8 then 243 + l
  else if m =? 9 then 273 + l
  else if m =? 10 then 304 + l
  else 334 + l.

Definition DayWithinYear (n : Z) : Z := n - DayFromYear (YearFromDay n).

Definition MonthFromDay (n : Z) : Z :=
  let d := DayWithinYear n in
  let leap := isLeap (YearFromDay n) in
  if d <? monthStart 1 leap then 0
  else if d <? monthStart 2 leap then 1
  else if d <? monthStart 3 leap then 2
  else if d <? monthStart 4 leap then 3
  else if d <? monthStart 5 leap then 4
  else if d <? monthStart 6 leap then 5
  else if d <? monthStart 7 leap then 6
  else if d <? monthStart 8 leap then 7
  else if d <? monthStart 9 leap then 8
  else if d <? monthStart 10 leap then 9
  else if d <? monthStart 11 leap then 10
  else 11.

Definition DateFromDay (n : Z) : Z :=
  DayWithinYear n - monthStart (MonthFromDay n) (isLeap (YearFromDay n)) + 1.

Definition WeekDay (n : Z) : Z := (n + 4) mod 7.

(** [MakeDay]: months outside 0..11 carry into the year, the day of the
    month is an offset from day 1 and may be 0 or exceed the month. *)
Definition MakeDay (year month date : Z) : Z :=
  let ym := year + month / 12 in
  let mn := month mod 12 in
  DayFromYear ym + monthStart mn (isLeap ym) + date - 1.

(** Number of days of month [m] (0 = January) of year [y], by the usual
    table; this is the calendar's own definition, not the code's. *)
Definition daysInMonth (y m : Z) : Z :=
  if m =? 1 then (if isLeap y then 29 else 28)
  else if (m =? 3) || (m =? 5) || (m =? 8) || (m =? 10) then 30
  else 31.

End Calendar.

(* ================================================================== *)
(** * Strings: [trim], decimal fields, composite identifiers *)
(* ================================================================== *)

(** Code units that [String.prototype.trim] strips (white space and line
    terminators below 256): TAB, LF, VT, FF, CR, SP, NBSP. *)
Definition isWhiteSpace (c : ascii) : bool :=
  let n := nat_of_ascii c in
  (Nat.eqb n 9 || Nat.eqb n 10 || Nat.eqb n 11 || Nat.eqb n 12 ||
   Nat.eqb n 13 || Nat.eqb n 32 || Nat.eqb n 160)%bool.

Fixpoint trimStart (s : string) : string :=
  match s with
  | EmptyString => EmptyString
  | String c rest => if isWhiteSpace c then trimStart rest else s
  end.

Fixpoint trimEnd (s : string) : string :=
  match s with
  | EmptyString => EmptyString
  | String c rest =>
      match trimEnd rest with
      | EmptyString => if isWhiteSpace c then EmptyString else String c EmptyString
      | kept => String c kept
      end
  end.

Definition trim (s : string) : string := trimEnd (trimStart s).

Definition digit (n : Z) : ascii := ascii_of_nat (48 + Z.to_nat (n mod 10)).

Definition pad2 (n : Z) : string :=
  String (digit (n / 10)) (String (digit n) EmptyString).

Definition pad3 (n : Z) : string := String (digit (n / 100)) (pad2 n).

Definition pad4 (n : Z) : string := String (digit (n / 1000)) (pad3 n).

Definition pad6 (n : Z) : string :=
  String (digit (n / 100000)) (String (digit (n / 10000)) (pad4 n)).

(** [newId]: [Math.random().toString(36).slice(2)] and
    [Date.now().toString(36)] are the two draws [rnd] and [now]. *)
Definition newId (prefix rnd now : string) : string :=
  (prefix ++ "_" ++ rnd ++ "_" ++ now)%string.

(* ================================================================== *)
(** * [Date] *)
(* ================================================================== *)

Section DateModel.

(** The local time zone: minutes east of UTC. *)
Variable tz : Z.

Definition Date := Z.

Definition LocalTime (t : Date) : Z := t + tz * Calendar.msPerMinute.
Definition Day (t : Z) : Z := t / Calendar.msPerDay.

(** The year [new Date(year, month, date)] works with: a year argument
    between 0 and 99 stands for 1900 + year. *)
Definition fullYear (year : Z) : Z :=
  if (0 <=? year) && (year <=? 99) then 1900 + year else year.

(** [new Date(year, month, date)]: local midnight of the given day. *)
Definition newDate (year month date : Z) : Date :=
  Calendar.MakeDay (fullYear year) month date * Calendar.msPerDay
  - tz * Calendar.msPerMinute.

Definition getFullYear (t : Date) : Z := Calendar.YearFromDay (Day (LocalTime t)).
Definition getMonth (t : Date) : Z := Calendar.MonthFromDay (Day (LocalTime t)).
Definition getDate (t : Date) : Z := Calendar.DateFromDay (Day (LocalTime t)).
Definition getDay (t : Date) : Z := Calendar.WeekDay (Day (LocalTime t)).

(** [toISOString] prints the UTC fields: [YYYY-MM-DDTHH:mm:ss.sssZ], with
    a signed six-digit year outside 0..9999. *)
Definition isoYear (y : Z) : string :=
  if (0 <=? y) && (y <=? 9999) then pad4 y
  else if y <? 0 then ("-" ++ pad6 (Z.abs y))%string
  else ("+" ++ pad6 y)%string.

Definition toISOString (t : Date) : string :=
  let n := Day t in
  let ms := t mod Calendar.msPerDay in
  let month := Calendar.MonthFromDay n + 1 in
  let hours := ms / 3600000 in
  let minutes := ms / 60000 mod 60 in
  let seconds := ms / 1000 mod 60 in
  (isoYear (Calendar.YearFromDay n) ++ "-" ++ pad2 month ++ "-" ++
   pad2 (Calendar.DateFromDay n) ++ "T" ++
   pad2 hours ++ ":" ++ pad2 minutes ++ ":" ++ pad2 seconds ++ "." ++
   pad3 ms ++ "Z")%string.

Definition toYMD (date : Date) : string := substring 0 10 (toISOString date).

Definition startOfMonth (date : Date) : Date :=
  newDate (getFullYear date) (getMonth date) 1.

Definition endOfMonth (date : Date) : Date :=
  newDate (getFullYear date) (getMonth date + 1) 0.

Definition addMonths (date : Date) (count : Z) : Date :=
  newDate (getFullYear date) (getMonth date + count) 1.

(** ** [getMonthGrid] *)

(** [while (cells.length % 7 !== 0) cells.push(null)]; at most six pushes
    are ever needed, so seven rounds of the loop are enough. *)
Fixpoint padToWeek (rounds : nat) (cells : list (option Date)) : list (option Date) :=
  match rounds with
  | O => cells
  | S r =>
      if Nat.eqb (Nat.modulo (length cells) 7) 0 then cells
      else padToWeek r (cells ++ [None])
  end.

(** [cells.slice(i, j)] for [0 <= i <= j]. *)
Definition slice {A : Type} (i j : nat) (l : list A) : list A :=
  firstn (j - i) (skipn i l).

(** [for (let i = 0; i < cells.length; i += 7) rows.push(cells.slice(i, i + 7))];
    [rounds] bounds the number of iterations. *)
Fixpoint rowsFrom (rounds : nat) (i : nat) (cells : list (option Date))
  : list (list (option Date)) :=
  match rounds with
  | O => []
  | S r =>
      if Nat.ltb i (length cells)
      then slice i (i + 7) cells :: rowsFrom r (i + 7) cells
      else []
  end.

Definition monthCells (dateInMonth : Date) : list (option Date) :=
  let first := startOfMonth dateInMonth in
  let last := endOfMonth dateInMonth in
  let startDay := getDay first in
  let daysInMonth := getDate last in
  let pads := repeat None (Z.to_nat startDay) in
  let days :=
    map (fun d => Some (newDate (getFullYear first) (getMonth first) (Z.of_nat d)))
        (seq 1 (Z.to_nat daysInMonth)) in
  padToWeek 7 (pads ++ days).

Definition getMonthGrid (dateInMonth : Date) : list (list (option Date)) :=
  let cells := monthCells dateInMonth in
  rowsFrom (length cells) 0 cells.

End DateModel.

(* ================================================================== *)
(** * The document *)
(* ================================================================== *)

Module Contractor.
Record t : Type := mk { id : string; name : string; note : option string }.
End Contractor.

Module Labour.
Record t : Type := mk { id : string; contractorId : string; name : string; dailyRate : Z }.
End Labour.

Module AttendanceRecord.
Record t : Type := mk { id : string; labourId : string; date : string; present : bool }.
End AttendanceRecord.

Record AppData : Type := mkAppData {
  contractors : list Contractor.t;
  labours : list Labour.t;
  attendance : list AttendanceRecord.t
}.

(** The initial value handed to [usePersistentState]. *)
Definition initialData : AppData := mkAppData [] [] [].

(* ================================================================== *)
(** * Mutations ([setData (prev => ...)]) *)
(* ================================================================== *)

Definition upsertContractor (name : string) (note : option string)
    (rnd now : string) (prev : AppData) : AppData :=
  mkAppData
    (contractors prev ++ [Contractor.mk (newId "ctr" rnd now) name note])
    (labours prev)
    (attendance prev).

(** [prev.labours.find(l => l.id === a.labourId)?.contractorId !== id] *)
Definition ownerIsNot (id : string) (ls : list Labour.t) (a : AttendanceRecord.t) : bool :=
  match find (fun l => Labour.id l =? AttendanceRecord.labourId a)%string ls with
  | Some l => negb (Labour.contractorId l =? id)%string
  | None => true
  end.

Definition removeContractor (id : string) (prev : AppData) : AppData :=
  mkAppData
    (filter (fun c => negb (Contractor.id c =? id)%string) (contractors prev))
    (filter (fun l => negb (Labour.contractorId l =? id)%string) (labours prev))
    (filter (ownerIsNot id (labours prev)) (attendance prev)).

Definition upsertLabour (contractorId name : string) (dailyRate : Z)
    (rnd now : string) (prev : AppData) : AppData :=
  mkAppData
    (contractors prev)
    (labours prev ++ [Labour.mk (newId "lab" rnd now) contractorId name dailyRate])
    (attendance prev).

Definition removeLabour (id : string) (prev : AppData) : AppData :=
  mkAppData
    (contractors prev)
    (filter (fun l => negb (Labour.id l =? id)%string) (labours prev))
    (filter (fun a => negb (AttendanceRecord.labourId a =? id)%string) (attendance prev)).

(** [{ ...a, present }] *)
Definition withPresent (present : bool) (a : AttendanceRecord.t) : AttendanceRecord.t :=
  AttendanceRecord.mk (AttendanceRecord.id a) (AttendanceRecord.labourId a)
                      (AttendanceRecord.date a) present.

Definition attendanceId (labourId ymd : string) : string :=
  (labourId ++ ":" ++ ymd)%string.

(** [a => a.id === id ? { ...a, present } : a] *)
Definition replacePresent (id : string) (present : bool)
    (a : AttendanceRecord.t) : AttendanceRecord.t :=
  if (AttendanceRecord.id a =? id)%string then withPresent present a else a.

(** [a => a.id === id] *)
Definition hasId (id : string) (a : AttendanceRecord.t) : bool :=
  (AttendanceRecord.id a =? id)%string.

Definition setAttendance (labourId ymd : string) (present : bool)
    (prev : AppData) : AppData :=
  let id := attendanceId labourId ymd in
  let exists_ := find (hasId id) (attendance prev) in
  let attendance' :=
    match exists_ with
    | Some _ => map (replacePresent id present) (attendance prev)
    | None => attendance prev ++ [AttendanceRecord.mk id labourId ymd present]
    end in
  mkAppData (contractors prev) (labours prev) attendance'.

(** ** The two "Add" buttons of the dashboard

    The click handlers validate the form fields and then call the upsert. *)

(** A JavaScript number as the form can produce it with [Number(labRate)]:
    every finite double is a rational. *)
Inductive number : Type :=
| NaN
| Infinity
| NegInfinity
| Finite (q : Q).

Definition Number_isFinite (x : number) : bool :=
  match x with Finite _ => true | _ => false end.

(** [x <= 0] *)
Definition leZero (x : number) : bool :=
  match x with
  | Finite q => Qle_bool q 0
  | NegInfinity => true
  | NaN | Infinity => false
  end.

(** [Math.round] on a finite number: the nearest integer, ties towards
    plus infinity. *)
Definition Math_round (q : Q) : Z := Qfloor (q + (1 # 2)).

(** [if (!ctrName.trim()) return;
     upsertContractor(ctrName.trim(), ctrNote.trim() || undefined)] *)
Definition onAddContractor (ctrName ctrNote : string) (rnd now : string)
    (prev : AppData) : AppData :=
  if (trim ctrName =? "")%string then prev
  else upsertContractor (trim ctrName)
         (if (trim ctrNote =? "")%string then None else Some (trim ctrNote))
         rnd now prev.

(** [if (!labCtr || !labName.trim() || !Number.isFinite(rate) || rate <= 0) return;
     upsertLabour(labCtr, labName.trim(), Math.round(rate))] *)
Definition onAddLabour (labCtr labName : string) (rate : number) (rnd now : string)
    (prev : AppData) : AppData :=
  if ((labCtr =? "")%string || (trim labName =? "")%string
      || negb (Number_isFinite rate) || leZero rate)%bool
  then prev
  else match rate with
       | Finite q => upsertLabour labCtr (trim labName) (Math_round q) rnd now prev
       | _ => prev
       end.

(** Documents that the mutations build from the initial one. *)
Inductive reachable : AppData -> Prop :=
| reach_initial : reachable initialData
| reach_addContractor ctrName ctrNote rnd now d :
    reachable d -> reachable (onAddContractor ctrName ctrNote rnd now d)
| reach_removeContractor id d :
    reachable d -> reachable (removeContractor id d)
| reach_addLabour labCtr labName rate rnd now d :
    reachable d -> reachable (onAddLabour labCtr labName rate rnd now d)
| reach_removeLabour id d :
    reachable d -> reachable (removeLabour id d)
| reach_setAttendance labourId ymd present d :
    reachable d -> reachable (setAttendance labourId ymd present d).

(* ================================================================== *)
(** * Aggregation *)
(* ================================================================== *)

Section Aggregation.

Variable tz : Z.

Definition inMonthRange (ymdFirst ymdLast : string) (labourId : string)
    (a : AttendanceRecord.t) : bool :=
  ((AttendanceRecord.labourId a =? labourId)%string
   && (ymdFirst <=? AttendanceRecord.date a)%string
   && (AttendanceRecord.date a <=? ymdLast)%string
   && AttendanceRecord.present a)%bool.

Definition daysPresentFor (data : AppData) (labourId : string) (monthDate : Date) : Z :=
  let first := startOfMonth tz monthDate in
  let last := endOfMonth tz monthDate in
  let ymdFirst := toYMD first in
  let ymdLast := toYMD last in
  let list := filter (inMonthRange ymdFirst ymdLast labourId) (attendance data) in
  Z.of_nat (length list).

(** ** Numbers in the totals

    The totals are computed with JavaScript numbers, which are IEEE 754
    doubles.  Every number they meet is whole (the length of an array, a
    daily rate as [Math.round] left it, a product or a sum of such),
    infinite or NaN, so [num] holds just these values; the two zeros are
    not told apart. *)
Inductive num : Type :=
| Int (z : Z)
| PlusInfinity
| MinusInfinity
| NotANumber.

(** The double nearest to the whole value [z]: [z] itself up to 2^53 in
    magnitude; beyond that 53 significant bits are kept, a tie goes to the
    even neighbour, and from 2^1024 - 2^970 on the result is infinite. *)
Definition roundInt (z : Z) : num :=
  let a := Z.abs z in
  if a <=? 2 ^ 53 then Int z
  else
    let e := Z.log2 a - 52 in
    let q := a / 2 ^ e in
    let r := a mod 2 ^ e in
    let half := 2 ^ (e - 1) in
    let q' := if r <? half then q
              else if half <? r then q + 1
              else if Z.even q then q else q + 1 in
    let m := q' * 2 ^ e in
    if 2 ^ 1024 <=? m then (if z <? 0 then MinusInfinity else PlusInfinity)
    else Int (Z.sgn z * m).

(** [x + y] *)
Definition add (x y : num) : num :=
  match x, y with
  | Int a, Int b => roundInt (a + b)
  | NotANumber, _ | _, NotANumber => NotANumber
  | PlusInfinity, MinusInfinity | MinusInfinity, PlusInfinity => NotANumber
  | PlusInfinity, _ | _, PlusInfinity => PlusInfinity
  | MinusInfinity, _ | _, MinusInfinity => MinusInfinity
  end.

Record Bucket : Type := mkBucket { days : num; amount : num; labourCount : num }.

Definition zeroBucket : Bucket := mkBucket (Int 0) (Int 0) (Int 0).

(** [byContractor] is an object literal used as a map from contractor id to
    bucket.  [Buckets] holds its own properties, in creation order (a key
    that spells an array index is enumerated ahead of the others in
    JavaScript; the order matters to [grand] only when sums round). *)
Definition Buckets := list (string * Bucket).

(** The properties every object literal inherits from [Object.prototype]:
    reading one of these keys from [byContractor] yields a function (or,
    for [__proto__], the prototype), which is truthy. *)
Definition objectPrototypeKeys : list string :=
  ["constructor"; "__defineGetter__"; "__defineSetter__"; "hasOwnProperty";
   "__lookupGetter__"; "__lookupSetter__"; "isPrototypeOf";
   "propertyIsEnumerable"; "toString"; "valueOf"; "__proto__";
   "toLocaleString"].

Definition inherited (key : string) : bool :=
  existsb (String.eqb key) objectPrototypeKeys.

(** The own property stored under [key]. *)
Fixpoint lookup (key : string) (bc : Buckets) : option Bucket :=
  match bc with
  | [] => None
  | (k, v) :: rest => if (k =? key)%string then Some v else lookup key rest
  end.

(** [byContractor[key] ||= { days: 0, amount: 0, labourCount: 0 }]: nothing
    is assigned when the key already reads as a bucket or as an inherited
    property. *)
Definition ensure (key : string) (bc : Buckets) : Buckets :=
  match lookup key bc with
  | Some _ => bc
  | None => if inherited key then bc else bc ++ [(key, zeroBucket)]
  end.

(** In-place update of the bucket stored under [key]; when [key] is not an
    own property the write lands on the inherited object and [byContractor]
    keeps its properties. *)
Fixpoint update (key : string) (f : Bucket -> Bucket) (bc : Buckets) : Buckets :=
  match bc with
  | [] => []
  | (k, v) :: rest =>
      if (k =? key)%string then (k, f v) :: rest else (k, v) :: update key f rest
  end.

(** One iteration of [for (const labour of data.labours)]; [days] is the
    length of an array, a whole number below 2^32. *)
Definition accumulate (data : AppData) (month : Date) (bc : Buckets)
    (labour : Labour.t) : Buckets :=
  let days_ := daysPresentFor data (Labour.id labour) month in
  let amount_ := roundInt (days_ * Labour.dailyRate labour) in
  let key := Labour.contractorId labour in
  let bc := ensure key bc in
  let bc := update key (fun b => mkBucket (add (days b) (Int days_)) (amount b)
                                          (labourCount b)) bc in
  let bc := update key (fun b => mkBucket (days b) (add (amount b) amount_)
                                          (labourCount b)) bc in
  update key (fun b => mkBucket (days b) (amount b) (add (labourCount b) (Int 1))) bc.

Definition addBucket (acc v : Bucket) : Bucket :=
  mkBucket (add (days acc) (days v)) (add (amount acc) (amount v))
           (add (labourCount acc) (labourCount v)).

(** [Object.values(byContractor).reduce(..., zero)] *)
Definition reduceBuckets (values : list Bucket) : Bucket :=
  fold_left addBucket values zeroBucket.

Record Totals : Type := mkTotals { byContractor : Buckets; grand : Bucket }.

Definition totals (data : AppData) (month : Date) : Totals :=
  let byContractor := fold_left (accumulate data month) (labours data) [] in
  let grand := reduceBuckets (map snd byContractor) in
  mkTotals byContractor grand.

End Aggregation.

(* ================================================================== *)
(** * Notions the statements use *)
(* ================================================================== *)

(** The days of a list of cells, in order, without the empty cells. *)
Definition nonEmptyCells (cells : list (option Date)) : list Date :=
  flat_map (fun c => match c with Some d => [d] | None => [] end) cells.

Definition attendanceIdsDistinct (d : AppData) : Prop :=
  NoDup (map AttendanceRecord.id (attendance d)).

Definition onePerLabourAndDay (d : AppData) : Prop :=
  NoDup (map (fun a => (AttendanceRecord.labourId a, AttendanceRecord.date a))
             (attendance d)).

Definition idsComposite (d : AppData) : Prop :=
  Forall (fun a => AttendanceRecord.id a =
                   attendanceId (AttendanceRecord.labourId a) (AttendanceRecord.date a))
         (attendance d).

Definition hasRecordId (id : string) (d : AppData) : Prop :=
  exists a, In a (attendance d) /\ AttendanceRecord.id a = id.

(** Every identifier stored in a document: the ids of the three kinds of
    entities and the references to them. *)
Definition docIds (d : AppData) : list string :=
  map Contractor.id (contractors d)
  ++ map Labour.id (labours d)
  ++ map Labour.contractorId (labours d)
  ++ map AttendanceRecord.id (attendance d)
  ++ map AttendanceRecord.labourId (attendance d).

Definition contractorIdsDistinct (d : AppData) : Prop :=
  NoDup (map Contractor.id (contractors d)).

Definition labourIdsDistinct (d : AppData) : Prop :=
  NoDup (map Labour.id (labours d)).

(** An attendance record whose [labourId] is the id of no labourer. *)
Definition dangling (d : AppData) (a : AttendanceRecord.t) : Prop :=
  In a (attendance d) /\
  forall l, In l (labours d) -> Labour.id l <> AttendanceRecord.labourId a.

(** The document of the specification's scenario: one contractor, one
    labourer under it, present on two days of March 2024. *)
Definition scenario : AppData :=
  setAttendance "lab_p1_m1" "2024-03-12" true
    (setAttendance "lab_p1_m1" "2024-03-05" true
       (onAddLabour "ctr_p0_m0" "Suresh" (Finite (800 # 1)) "p1" "m1"
          (onAddContractor "Ravi Plumbing" "" "p0" "m0" initialData))).

Definition sumZ (l : list Z) : Z := fold_right Z.add 0 l.

(** The date key [yyyy-mm-dd] of day [d] of month [m] (0 = January). *)
Definition ymd (y m d : Z) : string :=
  (pad4 y ++ "-" ++ pad2 (m + 1) ++ "-" ++ pad2 d)%string.

(** The records the specification counts for a labourer and a month: his
    own, marked present, dated from the first to the last day of the month. *)
Definition countedInMonth (labourId : string) (y m : Z) (a : AttendanceRecord.t) : bool :=
  ((AttendanceRecord.labourId a =? labourId)%string
   && AttendanceRecord.present a
   && (ymd y m 1 <=? AttendanceRecord.date a)%string
   && (AttendanceRecord.date a <=? ymd y m (Calendar.daysInMonth y m))%string)%bool.

(** The date key of day number [n]. *)
Definition dayKey (n : Z) : string :=
  ymd (Calendar.YearFromDay n) (Calendar.MonthFromDay n) (Calendar.DateFromDay n).

(** March 2024 as the month state holds it in a zone [tz]. *)
Definition march2024 (tz : Z) : Date := newDate tz 2024 2 1.

(** Draws are base-36 numerals; all that matters below is that they do not
    contain the separator. *)
Fixpoint noSeparator (s : string) : bool :=
  match s with
  | EmptyString => true
  | String c rest => negb (Ascii.eqb c "_") && noSeparator rest
  end.

(* ================================================================== *)
(** * What the views read *)
(* ================================================================== *)

(** The checkbox of a calendar cell:
    [data.attendance.find(a => a.id === id)?.present ?? false]
    with [id = `${l.id}:${ymd}`]. *)
Definition presentAt (data : AppData) (labourId ymd : string) : bool :=
  match find (hasId (attendanceId labourId ymd)) (attendance data) with
  | Some a => AttendanceRecord.present a
  | None => false
  end.

(** The labourers listed under the contractor filter:
    [data.labours.filter(l => selectedContractorId === "all" ? true
                                : l.contractorId === selectedContractorId)]. *)
Definition visibleLabours (selectedContractorId : string) (data : AppData)
  : list Labour.t :=
  filter (fun l => if (selectedContractorId =? "all")%string then true
                   else (Labour.contractorId l =? selectedContractorId)%string)
         (labours data).

(** What a contractor's row reads its three figures from: a bucket, or,
    for an id that spells a property of [Object.prototype] and has no
    bucket, the inherited object, which has none of the three fields. *)
Inductive Row : Type :=
| RowBucket (b : Bucket)
| RowInherited.

(** A contractor's row in the tables:
    [totals.byContractor[c.id] || { days: 0, amount: 0, labourCount: 0 }]. *)
Definition bucketFor (t : Totals) (contractorId : string) : Row :=
  match lookup contractorId (byContractor t) with
  | Some b => RowBucket b
  | None => if inherited contractorId then RowInherited else RowBucket zeroBucket
  end.

(** The labourers of one contractor, in document order. *)
Definition laboursOf (contractorId : string) (data : AppData) : list Labour.t :=
  filter (fun l => (Labour.contractorId l =? contractorId)%string) (labours data).

(** Every labourer's contractor exists. *)
Definition labourRefsValid (d : AppData) : Prop :=
  forall l, In l (labours d) ->
    In (Labour.contractorId l) (map Contractor.id (contractors d)).

(** Every attendance record's labourer exists. *)
Definition attendanceRefsValid (d : AppData) : Prop :=
  forall a, In a (attendance d) ->
    In (AttendanceRecord.labourId a) (map Labour.id (labours d)).

(** What the two "Add" handlers let into a document. *)
Definition contractorEntered (c : Contractor.t) : Prop :=
  Contractor.name c <> "" /\ trim (Contractor.name c) = Contractor.name c /\
  Contractor.note c <> Some "" /\
  exists rnd now, Contractor.id c = newId "ctr" rnd now.

Definition labourEntered (l : Labour.t) : Prop :=
  Labour.name l <> "" /\ trim (Labour.name l) = Labour.name l /\
  Labour.contractorId l <> "" /\ 0 <= Labour.dailyRate l /\
  exists rnd now, Labour.id l = newId "lab" rnd now.

(** One labourer's line in the tables: days present in the month and the
    amount they earn ([days * l.dailyRate]). *)
Definition labourDays (tz : Z) (data : AppData) (month : Date) (l : Labour.t) : Z :=
  daysPresentFor tz data (Labour.id l) month.

Definition labourAmount (tz : Z) (data : AppData) (month : Date) (l : Labour.t) : Z :=
  labourDays tz data month l * Labour.dailyRate l.

(** The bucket a list of labourers adds up to in exact arithmetic. *)
Definition bucketOf (tz : Z) (data : AppData) (month : Date) (ls : list Labour.t)
  : Bucket :=
  mkBucket (Int (sumZ (map (labourDays tz data month) ls)))
           (Int (sumZ (map (labourAmount tz data month) ls)))
           (Int (Z.of_nat (length ls))).

(** A bucket after one more labourer: the three [+=] of the loop body. *)
Definition bumpBucket (tz : Z) (data : AppData) (month : Date)
    (b : Bucket) (l : Labour.t) : Bucket :=
  mkBucket (add (days b) (Int (labourDays tz data month l)))
           (add (amount b) (roundInt (labourAmount tz data month l)))
           (add (labourCount b) (Int 1)).

(** The whole numbers a double holds exactly. *)
Definition isDouble (z : Z) : bool :=
  match roundInt z with
  | Int z' => z' =? z
  | _ => false
  end.

(** The value of a finite number. *)
Definition intOf (x : num) : Z :=
  match x with
  | Int z => z
  | _ => 0
  end.

Definition wholeBucket (b : Bucket) : Prop :=
  exists d a n, b = mkBucket (Int d) (Int a) (Int n).

(** The sums over a list of labourers stay within the whole numbers that
    doubles count without gaps: the number of labourers, their days present
    and the magnitudes of their amounts add up to at most 2^53. *)
Definition exactSums (tz : Z) (data : AppData) (month : Date) (ls : list Labour.t)
  : Prop :=
  Z.of_nat (length ls) <= 2 ^ 53 /\
  sumZ (map (labourDays tz data month) ls) <= 2 ^ 53 /\
  sumZ (map (fun l => Z.abs (labourAmount tz data month l)) ls) <= 2 ^ 53.

(** A document whose totals for a month are computed without rounding:
    the daily rates are doubles and the sums over all labourers are exact. *)
Definition exactTotals (tz : Z) (data : AppData) (month : Date) : Prop :=
  Forall (fun l => isDouble (Labour.dailyRate l) = true) (labours data) /\
  exactSums tz data month (labours data).

(** The labourers of each bucket, bucket by bucket. *)
Definition groups (tz : Z) (data : AppData) (month : Date) : list (list Labour.t) :=
  map (fun k => laboursOf k data) (map fst (byContractor (totals tz data month))).

(** The labourers that reach a bucket: those whose contractor id does not
    spell an inherited property. *)
Definition countedLabours (data : AppData) : list Labour.t :=
  filter (fun l => negb (inherited (Labour.contractorId l))) (labours data).

(** The bucket under a key, or the zero bucket when the key is absent. *)
Definition orZero (ob : option Bucket) : Bucket :=
  match ob with Some b => b | None => zeroBucket end.

(** Lexicographic order on (year, month, day). *)
Definition lexLt (y m d y' m' d' : Z) : Prop :=
  y < y' \/ (y = y' /\ (m < m' \/ (m = m' /\ d < d'))).

(** A string that does not start with white space. *)
Definition startsClean (s : string) : Prop :=
  match s with
  | EmptyString => True
  | String c _ => isWhiteSpace c = false
  end.

(** A string without the colon that separates the two parts of a composite
    attendance id. *)
Fixpoint noColon (s : string) : bool :=
  match s with
  | EmptyString => true
  | String c rest => negb (Ascii.eqb c ":") && noColon rest
  end.

(** The years [new Date(year, month, date)] takes as given: all but
    0 .. 99 (see [fullYear]). *)
Definition plainYear (y : Z) : Prop := y < 0 \/ 99 < y.

(* ================================================================== *)
(** * The calendar *)
(* ================================================================== *)

Import Calendar.

(** Linear arithmetic over [nat] with division and remainder by constants. *)
Ltac nat_mod_lia := zify; Z.to_euclidean_division_equations; lia.

Lemma isLeap_spec y :
  isLeap y = true <-> (y mod 4 = 0 /\ (y mod 100 <> 0 \/ y mod 400 = 0)).
Proof.
  unfold isLeap.
  rewrite andb_true_iff, orb_true_iff, negb_true_iff, !Z.eqb_eq, Z.eqb_neq.
  tauto.
Qed.

Lemma DayFromYear_succ y : DayFromYear (y + 1) = DayFromYear y + DaysInYear y.
Proof.
  unfold DaysInYear.
  destruct (isLeap y) eqn:E.
  - apply isLeap_spec in E. unfold DayFromYear.
    Z.div_mod_to_equations; lia.
  - assert (H : ~ (y mod 4 = 0 /\ (y mod 100 <> 0 \/ y mod 400 = 0))).
    { rewrite <- isLeap_spec, E. discriminate. }
    unfold DayFromYear.
    Z.div_mod_to_equations; lia.
Qed.

Lemma YearFromDay_bounds n :
  DayFromYear (YearFromDay n) <= n < DayFromYear (YearFromDay n + 1).
Proof.
  unfold YearFromDay.
  set (est := 1970 + n * 400 / 146097).
  assert (Hlo : DayFromYear (est - 1) <= n).
  { unfold DayFromYear, est. Z.div_mod_to_equations; lia. }
  assert (Hhi : n < DayFromYear (est + 2)).
  { unfold DayFromYear, est. Z.div_mod_to_equations; lia. }
  destruct (Z.ltb_spec n (DayFromYear est)).
  - replace (est - 1 + 1) with est by lia. lia.
  - destruct (Z.leb_spec (DayFromYear (est + 1)) n).
    + replace (est + 1 + 1) with (est + 2) by lia. lia.
    + lia.
Qed.

Lemma DayFromYear_lt y y' : y < y' -> DayFromYear y < DayFromYear y'.
Proof. intros H. unfold DayFromYear. Z.div_mod_to_equations; lia. Qed.

Lemma YearFromDay_unique n y :
  DayFromYear y <= n < DayFromYear (y + 1) -> YearFromDay n = y.
Proof.
  intros [Hlo Hhi].
  pose proof (YearFromDay_bounds n) as [Blo Bhi].
  destruct (Z.lt_trichotomy (YearFromDay n) y) as [Hc | [Hc | Hc]]; [| exact Hc |].
  - exfalso.
    assert (DayFromYear (YearFromDay n + 1) <= DayFromYear y).
    { destruct (Z.eq_dec (YearFromDay n + 1) y) as [-> | Hne]; [lia |].
      apply Z.lt_le_incl, DayFromYear_lt. lia. }
    lia.
  - exfalso.
    assert (DayFromYear (y + 1) <= DayFromYear (YearFromDay n)).
    { destruct (Z.eq_dec (y + 1) (YearFromDay n)) as [-> | Hne]; [lia |].
      apply Z.lt_le_incl, DayFromYear_lt. lia. }
    lia.
Qed.

Lemma month_cases m : 0 <= m < 12 ->
  m = 0 \/ m = 1 \/ m = 2 \/ m = 3 \/ m = 4 \/ m = 5 \/ m = 6 \/ m = 7 \/
  m = 8 \/ m = 9 \/ m = 10 \/ m = 11.
Proof. lia. Qed.

Ltac each_month H :=
  apply month_cases in H;
  repeat (destruct H as [H | H]); subst.

Lemma daysInMonth_pos y m : 28 <= daysInMonth y m <= 31.
Proof.
  unfold daysInMonth.
  destruct (m =? 1); [destruct (isLeap y); lia |].
  destruct ((m =? 3) || (m =? 5) || (m =? 8) || (m =? 10))%bool; lia.
Qed.

Lemma monthStart_next y m : 0 <= m < 11 ->
  monthStart (m + 1) (isLeap y) = monthStart m (isLeap y) + daysInMonth y m.
Proof.
  intros H. assert (H' : 0 <= m < 12) by lia.
  each_month H'; try lia; unfold daysInMonth; cbn; destruct (isLeap y); reflexivity.
Qed.

Lemma monthStart_december y :
  monthStart 11 (isLeap y) + daysInMonth y 11 = DaysInYear y.
Proof. unfold DaysInYear; cbn; destruct (isLeap y); reflexivity. Qed.

Lemma MakeDay_in_range y m d : 0 <= m < 12 ->
  MakeDay y m d = DayFromYear y + monthStart m (isLeap y) + d - 1.
Proof.
  intros H. unfold MakeDay.
  rewrite Z.div_small, Z.mod_small, Z.add_0_r by lia. reflexivity.
Qed.

Lemma civil_of_MakeDay y m d :
  0 <= m < 12 -> 1 <= d <= daysInMonth y m ->
  YearFromDay (MakeDay y m d) = y /\
  MonthFromDay (MakeDay y m d) = m /\
  DateFromDay (MakeDay y m d) = d.
Proof.
  intros Hm Hd.
  rewrite MakeDay_in_range by assumption.
  set (n := DayFromYear y + monthStart m (isLeap y) + d - 1).
  assert (Hy : YearFromDay n = y).
  { apply YearFromDay_unique. rewrite DayFromYear_succ.
    unfold n, DaysInYear. revert Hd. unfold daysInMonth.
    each_month Hm; cbn; destruct (isLeap y); lia. }
  assert (Hmo : MonthFromDay n = m).
  { unfold MonthFromDay, DayWithinYear. rewrite Hy. subst n.
    revert Hd. unfold daysInMonth.
    each_month Hm; cbn; destruct (isLeap y); intros Hd;
      repeat match goal with
             | |- context [?a <? ?b] => destruct (Z.ltb_spec a b); try lia
             end. }
  repeat split; [exact Hy | exact Hmo |].
  unfold DateFromDay, DayWithinYear. rewrite Hmo, Hy. subst n. lia.
Qed.

Lemma MakeDay_month_end y m : 0 <= m < 12 ->
  MakeDay y (m + 1) 0 = MakeDay y m (daysInMonth y m).
Proof.
  intros Hm.
  destruct (Z.eq_dec m 11) as [-> | Hne].
  - rewrite (MakeDay_in_range y 11) by lia.
    unfold MakeDay. change ((11 + 1) / 12) with 1. change ((11 + 1) mod 12) with 0.
    rewrite DayFromYear_succ, <- monthStart_december.
    change (monthStart 0 (isLeap (y + 1))) with 0. lia.
  - rewrite !MakeDay_in_range by lia. rewrite monthStart_next by lia. lia.
Qed.

Lemma MonthFromDay_range n : 0 <= MonthFromDay n < 12.
Proof.
  unfold MonthFromDay.
  repeat match goal with
         | |- context [?a <? ?b] => destruct (a <? b); try lia
         end.
Qed.


Section DateFacts.
Variable tz : Z.

Lemma fullYear_plain y : plainYear y -> fullYear y = y.
Proof.
  unfold plainYear, fullYear. intros H.
  destruct (Z.leb_spec 0 y); destruct (Z.leb_spec y 99); cbn [andb]; lia.
Qed.

Lemma fullYear_century y : 0 <= y <= 99 -> fullYear y = 1900 + y.
Proof.
  unfold fullYear. intros H.
  destruct (Z.leb_spec 0 y); destruct (Z.leb_spec y 99); cbn [andb]; lia.
Qed.

Lemma plainYear_fullYear y : plainYear (fullYear y).
Proof.
  unfold plainYear, fullYear.
  destruct (Z.leb_spec 0 y); destruct (Z.leb_spec y 99); cbn [andb]; lia.
Qed.

Lemma newDate_fullYear y m d : newDate tz y m d = newDate tz (fullYear y) m d.
Proof.
  unfold newDate. rewrite (fullYear_plain (fullYear y)) by apply plainYear_fullYear.
  reflexivity.
Qed.

Lemma Day_newDate y m d :
  Day (LocalTime tz (newDate tz y m d)) = MakeDay (fullYear y) m d.
Proof.
  unfold Day, LocalTime, newDate, msPerDay, msPerMinute.
  replace (MakeDay (fullYear y) m d * 86400000 - tz * 60000 + tz * 60000)
    with (MakeDay (fullYear y) m d * 86400000) by lia.
  apply Z.div_mul. lia.
Qed.

Lemma getMonth_range t : 0 <= getMonth tz t < 12.
Proof. apply MonthFromDay_range. Qed.

(** The fields of [new Date(y, m, d)] are those of the day it names in
    the year [fullYear y]. *)
Lemma fields_newDate_fullYear y m d :
  0 <= m < 12 -> 1 <= d <= daysInMonth (fullYear y) m ->
  getFullYear tz (newDate tz y m d) = fullYear y /\
  getMonth tz (newDate tz y m d) = m /\
  getDate tz (newDate tz y m d) = d.
Proof.
  intros Hm Hd. unfold getFullYear, getMonth, getDate.
  rewrite Day_newDate. apply civil_of_MakeDay; assumption.
Qed.


Lemma startOfMonth_fields_fullYear t :
  getFullYear tz (startOfMonth tz t) = fullYear (getFullYear tz t) /\
  getMonth tz (startOfMonth tz t) = getMonth tz t /\
  getDate tz (startOfMonth tz t) = 1.
Proof.
  unfold startOfMonth. apply fields_newDate_fullYear.
  - apply getMonth_range.
  - pose proof (daysInMonth_pos (fullYear (getFullYear tz t)) (getMonth tz t)). lia.
Qed.

Lemma startOfMonth_fields t :
  plainYear (getFullYear tz t) ->
  getFullYear tz (startOfMonth tz t) = getFullYear tz t /\
  getMonth tz (startOfMonth tz t) = getMonth tz t /\
  getDate tz (startOfMonth tz t) = 1.
Proof.
  intros Hy. pose proof (startOfMonth_fields_fullYear t) as H.
  rewrite (fullYear_plain _ Hy) in H. exact H.
Qed.

Lemma endOfMonth_fields_fullYear t :
  getFullYear tz (endOfMonth tz t) = fullYear (getFullYear tz t) /\
  getMonth tz (endOfMonth tz t) = getMonth tz t /\
  getDate tz (endOfMonth tz t) =
    daysInMonth (fullYear (getFullYear tz t)) (getMonth tz t).
Proof.
  pose proof (getMonth_range t) as Hm.
  pose proof (daysInMonth_pos (fullYear (getFullYear tz t)) (getMonth tz t)) as Hd.
  set (y := fullYear (getFullYear tz t)) in *. set (m := getMonth tz t) in *.
  unfold endOfMonth. fold m.
  unfold getFullYear at 1, getMonth at 1, getDate.
  rewrite Day_newDate. fold y. rewrite MakeDay_month_end by exact Hm.
  apply civil_of_MakeDay; [exact Hm | lia].
Qed.


End DateFacts.

(* ================================================================== *)
(** * The month grid *)
(* ================================================================== *)
Section GridFacts.
Variable tz : Z.

Lemma padToWeek_rounds r : forall l,
  exists k, (k <= r)%nat /\
    padToWeek r l = l ++ repeat None k /\
    ((k < r)%nat -> ((length l + k) mod 7 = 0)%nat) /\
    (forall j, (j < k)%nat -> ((length l + j) mod 7 <> 0)%nat).
Proof.
  induction r as [| r IH]; intros l.
  - exists 0%nat. cbn. rewrite app_nil_r. repeat split; lia.
  - cbn [padToWeek].
    destruct (Nat.eqb_spec (length l mod 7) 0) as [E | E].
    + exists 0%nat. cbn [repeat]. rewrite app_nil_r, Nat.add_0_r.
      repeat split; try lia.
    + destruct (IH (l ++ [None])) as (k & Hk & Heq & Hz & Hmin).
      rewrite length_app in Hz, Hmin. cbn in Hz, Hmin.
      exists (S k). repeat split.
      * lia.
      * rewrite Heq, <- app_assoc. reflexivity.
      * intros Hlt. replace (length l + S k)%nat with (length l + 1 + k)%nat by lia.
        apply Hz. lia.
      * intros j Hj. destruct j as [| j].
        -- rewrite Nat.add_0_r. exact E.
        -- replace (length l + S j)%nat with (length l + 1 + j)%nat by lia.
           apply Hmin. lia.
Qed.

Lemma padToWeek_week l :
  exists k, (k < 7)%nat /\
    padToWeek 7 l = l ++ repeat None k /\
    ((length l + k) mod 7 = 0)%nat.
Proof.
  destruct (padToWeek_rounds 7 l) as (k & Hk & Heq & Hz & Hmin).
  assert (Hlt : (k < 7)%nat).
  { destruct (Nat.eq_dec k 7) as [-> | Hne]; [| lia].
    exfalso. apply (Hmin ((7 - length l mod 7) mod 7)%nat); nat_mod_lia. }
  exists k. auto.
Qed.

Lemma rowsFrom_spec n : forall rounds i (cells : list (option Date)),
  length cells = (i + 7 * n)%nat -> (n <= rounds)%nat ->
  length (rowsFrom rounds i cells) = n /\
  Forall (fun row => length row = 7%nat) (rowsFrom rounds i cells) /\
  concat (rowsFrom rounds i cells) = skipn i cells.
Proof.
  induction n as [| n IH]; intros rounds i cells Hlen Hr.
  - assert (E : rowsFrom rounds i cells = []).
    { destruct rounds; [reflexivity |]. cbn [rowsFrom].
      destruct (Nat.ltb_spec i (length cells)); [lia | reflexivity]. }
    rewrite E. cbn. repeat split; [constructor |].
    symmetry. apply skipn_all2. lia.
  - destruct rounds as [| r]; [lia |]. cbn [rowsFrom].
    destruct (Nat.ltb_spec i (length cells)); [| lia].
    destruct (IH r (i + 7)%nat cells) as (Hl & Hall & Hcat); [lia | lia |].
    assert (Hs : slice i (i + 7) cells = firstn 7 (skipn i cells)).
    { unfold slice. f_equal. lia. }
    rewrite Hs. cbn [length concat]. repeat split.
    + lia.
    + constructor; [| exact Hall].
      rewrite length_firstn, length_skipn. lia.
    + rewrite Hcat. rewrite <- (firstn_skipn 7 (skipn i cells)) at 2.
      f_equal. rewrite skipn_skipn. f_equal. lia.
Qed.

End GridFacts.

Section GridTheorem.
Variable tz : Z.

Lemma nonEmptyCells_app a b :
  nonEmptyCells (a ++ b) = nonEmptyCells a ++ nonEmptyCells b.
Proof. unfold nonEmptyCells. apply flat_map_app. Qed.

Lemma nonEmptyCells_pads k : nonEmptyCells (repeat None k) = [].
Proof. induction k; [reflexivity | exact IHk]. Qed.

Lemma nonEmptyCells_days (f : nat -> Date) l :
  nonEmptyCells (map (fun d => Some (f d)) l) = map f l.
Proof. induction l as [| d l IH]; [reflexivity |]. cbn. f_equal. exact IH. Qed.

(** The flat list of cells before it is cut into rows. *)
Lemma monthCells_shape (m : Date) :
  let y := fullYear (getFullYear tz m) in
  let mo := getMonth tz m in
  exists trailing : nat,
    (trailing < 7)%nat /\
    monthCells tz m =
      repeat None (Z.to_nat (WeekDay (MakeDay y mo 1)))
      ++ map (fun d => Some (newDate tz y mo (Z.of_nat d)))
             (seq 1 (Z.to_nat (daysInMonth y mo)))
      ++ repeat None trailing /\
    ((length (monthCells tz m)) mod 7 = 0)%nat.
Proof.
  intros y mo. unfold monthCells.
  destruct (startOfMonth_fields_fullYear tz m) as (Hy & Hmo & _).
  destruct (endOfMonth_fields_fullYear tz m) as (_ & _ & Hlast).
  rewrite Hy, Hmo, Hlast. fold y mo.
  assert (Hday : getDay tz (startOfMonth tz m) = WeekDay (MakeDay y mo 1)).
  { unfold getDay, startOfMonth. rewrite Day_newDate. reflexivity. }
  rewrite Hday.
  set (base := repeat None _ ++ map _ _).
  destruct (padToWeek_week base) as (k & Hk & Heq & Hz).
  exists k. rewrite Heq. split; [exact Hk |]. split.
  - unfold base. rewrite <- app_assoc. reflexivity.
  - rewrite length_app, repeat_length. exact Hz.
Qed.

End GridTheorem.

Lemma rowsFrom_whole (cells : list (option Date)) :
  (length cells mod 7 = 0)%nat ->
  length (rowsFrom (length cells) 0 cells) = (length cells / 7)%nat /\
  Forall (fun row => length row = 7%nat) (rowsFrom (length cells) 0 cells) /\
  concat (rowsFrom (length cells) 0 cells) = cells.
Proof.
  intros Hmod.
  destruct (rowsFrom_spec (length cells / 7) (length cells) 0 cells)
    as (Hrows & Hseven & Hcat); [nat_mod_lia | nat_mod_lia |].
  auto.
Qed.






(* ================================================================== *)
(** * Attendance *)
(* ================================================================== *)

Section SetAttendanceFacts.

Variables (id : string) (present : bool).

Lemma replacePresent_keeps_id a :
  AttendanceRecord.id (replacePresent id present a) = AttendanceRecord.id a.
Proof. unfold replacePresent. destruct (AttendanceRecord.id a =? id)%string; reflexivity. Qed.

Lemma replacePresent_idempotent a :
  replacePresent id present (replacePresent id present a) = replacePresent id present a.
Proof.
  unfold replacePresent. destruct (AttendanceRecord.id a =? id)%string eqn:E.
  - cbn. rewrite E. reflexivity.
  - rewrite E. reflexivity.
Qed.

Lemma replacePresent_other l :
  find (hasId id) l = None -> map (replacePresent id present) l = l.
Proof.
  induction l as [| a l IH]; [reflexivity |]. cbn. unfold hasId at 1.
  destruct (AttendanceRecord.id a =? id)%string eqn:E; [discriminate |].
  intros H. unfold replacePresent at 1. rewrite E. f_equal. apply IH, H.
Qed.

Lemma find_hasId_iff (l : list AttendanceRecord.t) :
  find (hasId id) l <> None <-> exists a, In a l /\ AttendanceRecord.id a = id.
Proof.
  split.
  - destruct (find _ l) as [a |] eqn:E; [| congruence].
    intros _. apply find_some in E. destruct E as [Hin Heq].
    exists a. split; [exact Hin |]. apply String.eqb_eq, Heq.
  - intros (a & Hin & Heq) Hnone.
    pose proof (find_none _ _ Hnone a Hin) as Hf. unfold hasId in Hf.
    rewrite Heq, String.eqb_refl in Hf. discriminate.
Qed.

Lemma replacePresent_in_place l :
  Forall2 (fun old new =>
             AttendanceRecord.id new = AttendanceRecord.id old /\
             AttendanceRecord.labourId new = AttendanceRecord.labourId old /\
             AttendanceRecord.date new = AttendanceRecord.date old /\
             AttendanceRecord.present new =
               (if (AttendanceRecord.id old =? id)%string then present
                else AttendanceRecord.present old))
          l (map (replacePresent id present) l).
Proof.
  induction l as [| a l IH]; [constructor |]. cbn. constructor; [| exact IH].
  unfold replacePresent. destruct (AttendanceRecord.id a =? id)%string; cbn; auto.
Qed.

End SetAttendanceFacts.

Lemma hasRecordId_dec id d : hasRecordId id d \/ ~ hasRecordId id d.
Proof.
  destruct (find (hasId id) (attendance d)) eqn:E.
  - left. apply find_hasId_iff. congruence.
  - right. intros H. apply find_hasId_iff in H. congruence.
Qed.

Lemma find_hasId_none id d :
  ~ hasRecordId id d -> find (hasId id) (attendance d) = None.
Proof.
  intros H. destruct (find (hasId id) (attendance d)) eqn:E; [| reflexivity].
  exfalso. apply H, find_hasId_iff. rewrite E. discriminate.
Qed.

Lemma setAttendance_existing labourId ymd present d :
  hasRecordId (attendanceId labourId ymd) d ->
  setAttendance labourId ymd present d =
  mkAppData (contractors d) (labours d)
            (map (replacePresent (attendanceId labourId ymd) present) (attendance d)).
Proof.
  intros H. apply find_hasId_iff in H. unfold setAttendance.
  destruct (find _ (attendance d)); [reflexivity | congruence].
Qed.

Lemma setAttendance_fresh labourId ymd present d :
  ~ hasRecordId (attendanceId labourId ymd) d ->
  setAttendance labourId ymd present d =
  mkAppData (contractors d) (labours d)
            (attendance d ++
             [AttendanceRecord.mk (attendanceId labourId ymd) labourId ymd present]).
Proof.
  intros H. unfold setAttendance.
  rewrite (find_hasId_none _ _ H). reflexivity.
Qed.

(** C5. [setAttendance] is idempotent: applying it twice with the same
    labourer, date and flag gives the document of one application.  When a
    record with the composite id exists the list keeps its length and order
    and only [present] of the matching record changes; otherwise exactly one
    record is appended. *)
Theorem setAttendance_idempotent (labourId ymd : string) (present : bool) (d : AppData) :
  let id := attendanceId labourId ymd in
  let d' := setAttendance labourId ymd present d in
  setAttendance labourId ymd present d' = d' /\
  contractors d' = contractors d /\
  labours d' = labours d /\
  (hasRecordId id d ->
     Forall2 (fun old new =>
                AttendanceRecord.id new = AttendanceRecord.id old /\
                AttendanceRecord.labourId new = AttendanceRecord.labourId old /\
                AttendanceRecord.date new = AttendanceRecord.date old /\
                AttendanceRecord.present new =
                  (if (AttendanceRecord.id old =? id)%string then present
                   else AttendanceRecord.present old))
             (attendance d) (attendance d')) /\
  (~ hasRecordId id d ->
     attendance d' =
     attendance d ++ [AttendanceRecord.mk id labourId ymd present]).
Proof.
  intros id d'. repeat split.
  - unfold d'. destruct (hasRecordId_dec id d) as [H | H].
    + rewrite (setAttendance_existing _ _ _ d H).
      rewrite setAttendance_existing.
      * cbn. rewrite map_map. f_equal. apply map_ext. intros a.
        apply replacePresent_idempotent.
      * destruct H as (a & Hin & Heq).
        exists (replacePresent id present a). cbn. split.
        -- apply in_map, Hin.
        -- rewrite replacePresent_keeps_id. exact Heq.
    + rewrite (setAttendance_fresh _ _ _ d H).
      rewrite setAttendance_existing.
      * cbn. rewrite map_app. f_equal. f_equal.
        -- apply replacePresent_other, find_hasId_none, H.
        -- cbn. unfold replacePresent. cbn. rewrite String.eqb_refl. reflexivity.
      * eexists. cbn. split; [apply in_or_app; right; left; reflexivity | reflexivity].
  - intros H. unfold d'. rewrite (setAttendance_existing _ _ _ d H). cbn.
    apply replacePresent_in_place.
  - intros H. unfold d'. rewrite (setAttendance_fresh _ _ _ d H). reflexivity.
Qed.

Lemma NoDup_map_filter {A B : Type} (g : A -> B) (f : A -> bool) l :
  NoDup (map g l) -> NoDup (map g (filter f l)).
Proof.
  induction l as [| a l IH]; cbn; intros H; [constructor |].
  inversion H as [| ? ? Hnin Hnd]; subst.
  destruct (f a); [| apply IH, Hnd].
  cbn. constructor; [| apply IH, Hnd].
  intros Hin. apply Hnin. apply in_map_iff in Hin. destruct Hin as (x & Hx & Hin).
  apply filter_In in Hin. apply in_map_iff. exists x. tauto.
Qed.

Lemma map_id_replacePresent id present l :
  map AttendanceRecord.id (map (replacePresent id present) l) = map AttendanceRecord.id l.
Proof.
  rewrite map_map. apply map_ext. intros a. apply replacePresent_keeps_id.
Qed.

Lemma onAddContractor_attendance n o r t d :
  attendance (onAddContractor n o r t d) = attendance d.
Proof. unfold onAddContractor. destruct (trim n =? "")%string; reflexivity. Qed.

Lemma onAddLabour_attendance c n rate r t d :
  attendance (onAddLabour c n rate r t d) = attendance d.
Proof.
  unfold onAddLabour.
  destruct ((c =? "")%string || (trim n =? "")%string
            || negb (Number_isFinite rate) || leZero rate)%bool; [reflexivity |].
  destruct rate; reflexivity.
Qed.

Lemma setAttendance_idsDistinct l y p d :
  attendanceIdsDistinct d -> attendanceIdsDistinct (setAttendance l y p d).
Proof.
  unfold attendanceIdsDistinct. intros H.
  destruct (hasRecordId_dec (attendanceId l y) d) as [E | E].
  - rewrite (setAttendance_existing _ _ _ _ E). cbn.
    rewrite map_id_replacePresent. exact H.
  - rewrite (setAttendance_fresh _ _ _ _ E). cbn.
    rewrite map_app. cbn. apply NoDup_app.
    + exact H.
    + constructor; [intros [] | constructor].
    + intros x Hx [<- | []]. apply E.
      apply in_map_iff in Hx. destruct Hx as (a & Ha & Hin). exists a. tauto.
Qed.

Lemma setAttendance_idsComposite l y p d :
  idsComposite d -> idsComposite (setAttendance l y p d).
Proof.
  unfold idsComposite. intros H.
  destruct (hasRecordId_dec (attendanceId l y) d) as [E | E].
  - rewrite (setAttendance_existing _ _ _ _ E). cbn.
    apply Forall_map. revert H. apply Forall_impl. intros a Ha.
    unfold replacePresent. destruct (AttendanceRecord.id a =? _)%string; exact Ha.
  - rewrite (setAttendance_fresh _ _ _ _ E). cbn.
    apply Forall_app. split; [exact H |]. constructor; [reflexivity | constructor].
Qed.

Lemma composite_distinct_onePerDay d :
  idsComposite d -> attendanceIdsDistinct d -> onePerLabourAndDay d.
Proof.
  unfold idsComposite, attendanceIdsDistinct, onePerLabourAndDay. intros Hc Hd.
  apply (NoDup_map_inv (fun k => attendanceId (fst k) (snd k))).
  rewrite map_map. cbn.
  erewrite map_ext_in; [exact Hd |].
  intros a Ha. rewrite Forall_forall in Hc. symmetry. apply Hc, Ha.
Qed.

Lemma reachable_key_invariant d :
  reachable d -> idsComposite d /\ attendanceIdsDistinct d.
Proof.
  unfold idsComposite, attendanceIdsDistinct.
  induction 1 as [| n o r t d _ [IHc IHd] | id d _ [IHc IHd]
                  | c n rate r t d _ [IHc IHd] | id d _ [IHc IHd]
                  | l y p d _ [IHc IHd]].
  - split; constructor.
  - rewrite onAddContractor_attendance. split; assumption.
  - cbn. split; [apply incl_Forall with (2 := IHc), incl_filter
                | apply NoDup_map_filter, IHd].
  - rewrite onAddLabour_attendance. split; assumption.
  - cbn. split; [apply incl_Forall with (2 := IHc), incl_filter
                | apply NoDup_map_filter, IHd].
  - split; [apply setAttendance_idsComposite, IHc
           | apply setAttendance_idsDistinct, IHd].
Qed.

Lemma replacePresent_sets id present l a :
  In a (map (replacePresent id present) l) -> AttendanceRecord.id a = id ->
  AttendanceRecord.present a = present.
Proof.
  intros Hin Hid. apply in_map_iff in Hin. destruct Hin as (a0 & <- & _).
  rewrite replacePresent_keeps_id in Hid. unfold replacePresent.
  destruct (String.eqb_spec (AttendanceRecord.id a0) id); [reflexivity | contradiction].
Qed.

(** C6. Attendance record ids are pairwise distinct, and there is at most
    one record per (labourer, date) pair, in the initial (empty) document and
    in every document the mutations build from it; each mutation preserves
    distinctness of the ids from any document; setting attendance for an
    existing key adds no record and changes no id, labourer or date: every
    record under the key gets the new [present] flag and every other record
    keeps its own; in a document built from the empty one this is the
    record of the (labourer, date) pair. *)
Theorem attendance_key_invariant :
  (attendanceIdsDistinct initialData /\ onePerLabourAndDay initialData) /\
  (forall d, attendanceIdsDistinct d ->
     (forall n o r t, attendanceIdsDistinct (onAddContractor n o r t d)) /\
     (forall id, attendanceIdsDistinct (removeContractor id d)) /\
     (forall c n rate r t, attendanceIdsDistinct (onAddLabour c n rate r t d)) /\
     (forall id, attendanceIdsDistinct (removeLabour id d)) /\
     (forall l y p, attendanceIdsDistinct (setAttendance l y p d))) /\
  (forall d, reachable d -> attendanceIdsDistinct d /\ onePerLabourAndDay d) /\
  (forall d l y p, hasRecordId (attendanceId l y) d ->
     length (attendance (setAttendance l y p d)) = length (attendance d) /\
     map AttendanceRecord.id (attendance (setAttendance l y p d)) =
     map AttendanceRecord.id (attendance d) /\
     Forall2 (fun old new =>
                AttendanceRecord.id new = AttendanceRecord.id old /\
                AttendanceRecord.labourId new = AttendanceRecord.labourId old /\
                AttendanceRecord.date new = AttendanceRecord.date old /\
                AttendanceRecord.present new =
                  (if (AttendanceRecord.id old =? attendanceId l y)%string then p
                   else AttendanceRecord.present old))
             (attendance d) (attendance (setAttendance l y p d)) /\
     (forall a, In a (attendance (setAttendance l y p d)) ->
        AttendanceRecord.id a = attendanceId l y -> AttendanceRecord.present a = p)) /\
  (forall d l y p, reachable d ->
     (exists a, In a (attendance d) /\
                AttendanceRecord.labourId a = l /\ AttendanceRecord.date a = y) ->
     length (attendance (setAttendance l y p d)) = length (attendance d) /\
     (forall a, In a (attendance (setAttendance l y p d)) ->
        AttendanceRecord.labourId a = l -> AttendanceRecord.date a = y ->
        AttendanceRecord.present a = p)).
Proof.
  split; [split; constructor |]. split; [| split; [| split]].
  - intros d H. unfold attendanceIdsDistinct in *. repeat split; intros.
    + rewrite onAddContractor_attendance. exact H.
    + cbn. apply NoDup_map_filter, H.
    + rewrite onAddLabour_attendance. exact H.
    + cbn. apply NoDup_map_filter, H.
    + apply setAttendance_idsDistinct, H.
  - intros d H. destruct (reachable_key_invariant d H) as [Hc Hd].
    split; [exact Hd | apply composite_distinct_onePerDay; assumption].
  - intros d l y p H. rewrite (setAttendance_existing _ _ _ _ H). cbn.
    split; [apply length_map |]. split; [apply map_id_replacePresent |].
    split; [apply replacePresent_in_place |].
    intros a. apply replacePresent_sets.
  - intros d l y p R (a0 & Hin0 & Hl0 & Hy0).
    destruct (reachable_key_invariant d R) as [Hc _].
    assert (H : hasRecordId (attendanceId l y) d).
    { exists a0. split; [exact Hin0 |].
      unfold idsComposite in Hc. rewrite Forall_forall in Hc.
      rewrite (Hc a0 Hin0), Hl0, Hy0. reflexivity. }
    destruct (reachable_key_invariant _ (reach_setAttendance l y p d R)) as [Hc' _].
    unfold idsComposite in Hc'. rewrite Forall_forall in Hc'.
    rewrite (setAttendance_existing _ _ _ _ H) in Hc' |- *. cbn [attendance] in *.
    split; [apply length_map |].
    intros a Hin Hl Hy. apply (replacePresent_sets _ _ _ _ Hin).
    rewrite (Hc' a Hin), Hl, Hy. reflexivity.
Qed.

(** The invariant at work on a document with one record, set twice. *)
Lemma attendance_key_invariant_witness :
  let d := setAttendance "lab_a_b" "2024-03-05" true initialData in
  let d' := setAttendance "lab_a_b" "2024-03-05" false d in
  reachable d' /\ attendanceIdsDistinct d' /\ onePerLabourAndDay d' /\
  length (attendance d') = length (attendance d) /\
  (forall a, In a (attendance d') ->
     AttendanceRecord.id a = attendanceId "lab_a_b" "2024-03-05" ->
     AttendanceRecord.present a = false).
Proof.
  intros d d'.
  assert (R : reachable d') by (repeat constructor).
  destruct attendance_key_invariant as (_ & _ & Hreach & Hsame & _).
  destruct (Hreach d' R) as [H1 H2].
  assert (H : hasRecordId (attendanceId "lab_a_b" "2024-03-05") d)
    by (eexists; split; [left; reflexivity | reflexivity]).
  destruct (Hsame d "lab_a_b" "2024-03-05" false H) as (Hlen & _ & _ & Hset).
  split; [exact R |]. split; [exact H1 |]. split; [exact H2 |].
  split; [exact Hlen | exact Hset].
Defined.

Lemma setAttendance_idempotent_witness :
  setAttendance "lab_p1_m1" "2024-03-05" false
    (setAttendance "lab_p1_m1" "2024-03-05" false scenario) =
  setAttendance "lab_p1_m1" "2024-03-05" false scenario /\
  length (attendance (setAttendance "lab_p1_m1" "2024-03-05" false scenario)) = 2%nat /\
  length (attendance (setAttendance "lab_p1_m1" "2024-03-19" true scenario)) = 3%nat.
Proof.
  split; [| split].
  - apply (setAttendance_idempotent "lab_p1_m1" "2024-03-05" false scenario).
  - reflexivity.
  - reflexivity.
Defined.

(** ** Attendance for an unknown labourer *)

(** C10, as the code has it.  [setAttendance] never consults the labourers:
    for an id [L] of no labourer it still stores the record with id [L:D]
    and the given flag, appended when no record has that id and updated
    in place otherwise, and it leaves contractors and labourers alone; so a
    reachable document stays reachable and, in the appending case, holds a
    record that references no labourer. *)
Theorem setAttendance_unknown_labour (L D : string) (p : bool) (d : AppData) :
  (forall l, In l (labours d) -> Labour.id l <> L) ->
  let id := attendanceId L D in
  let d' := setAttendance L D p d in
  (exists a, In a (attendance d') /\ AttendanceRecord.id a = id /\
             AttendanceRecord.present a = p) /\
  labours d' = labours d /\
  contractors d' = contractors d /\
  (~ hasRecordId id d ->
     attendance d' = attendance d ++ [AttendanceRecord.mk id L D p] /\
     dangling d' (AttendanceRecord.mk id L D p)) /\
  (hasRecordId id d -> length (attendance d') = length (attendance d)) /\
  (reachable d -> reachable d').
Proof.
  intros Hunknown id d'. repeat split.
  - unfold d'. destruct (hasRecordId_dec id d) as [H | H].
    + rewrite (setAttendance_existing _ _ _ _ H). cbn.
      destruct H as (a & Hin & Heq).
      exists (replacePresent id p a). split; [apply in_map, Hin |].
      rewrite replacePresent_keeps_id. split; [exact Heq |].
      unfold replacePresent. fold id. rewrite Heq, String.eqb_refl. reflexivity.
    + rewrite (setAttendance_fresh _ _ _ _ H). cbn.
      eexists. split; [apply in_or_app; right; left; reflexivity |].
      split; reflexivity.
  - unfold d'. rewrite (setAttendance_fresh _ _ _ _ H). reflexivity.
  - unfold d'. rewrite (setAttendance_fresh _ _ _ _ H). cbn.
    apply in_or_app. right. left. reflexivity.
  - unfold d'. rewrite (setAttendance_fresh _ _ _ _ H). cbn. exact Hunknown.
  - intros H. unfold d'. rewrite (setAttendance_existing _ _ _ _ H). cbn.
    apply length_map.
  - intros R. apply reach_setAttendance, R.
Qed.

Lemma setAttendance_unknown_labour_witness :
  let d' := setAttendance "ghost" "2024-03-05" true scenario in
  reachable d' /\
  dangling d' (AttendanceRecord.mk "ghost:2024-03-05" "ghost" "2024-03-05" true).
Proof.
  intros d'.
  assert (Hunknown : forall l, In l (labours scenario) -> Labour.id l <> "ghost").
  { vm_compute. intuition (subst; discriminate). }
  destruct (setAttendance_unknown_labour "ghost" "2024-03-05" true scenario Hunknown)
    as (_ & _ & _ & Hfresh & _ & Hreach).
  split.
  - apply Hreach. unfold scenario. repeat constructor.
  - apply Hfresh. intros (a & Hin & Heq). vm_compute in Hin.
    intuition (subst; discriminate).
Defined.

(** C10 as stated fails when the record is already there: nothing is
    appended, the flag of the existing record is replaced. *)
Lemma setAttendance_unknown_labour_counterexample :
  let d := setAttendance "ghost" "2024-03-05" true initialData in
  labours d = [] /\
  attendance d = [AttendanceRecord.mk "ghost:2024-03-05" "ghost" "2024-03-05" true] /\
  attendance (setAttendance "ghost" "2024-03-05" false d) =
    [AttendanceRecord.mk "ghost:2024-03-05" "ghost" "2024-03-05" false].
Proof. repeat split. Qed.

(* ================================================================== *)
(** * Contractors and labourers *)
(* ================================================================== *)

(** ** Generated identifiers *)

Lemma append_cancel_l (p x y : string) : (p ++ x = p ++ y)%string -> x = y.
Proof.
  induction p as [| c p IH]; cbn; intros H; [exact H |].
  injection H as H. apply IH, H.
Qed.

Lemma separated_inj (r r' t t' : string) :
  noSeparator r = true -> noSeparator r' = true ->
  (r ++ "_" ++ t = r' ++ "_" ++ t')%string -> r = r' /\ t = t'.
Proof.
  revert r'. induction r as [| c r IH]; intros [| c' r']; cbn; intros Hr Hr' H.
  - injection H as H. auto.
  - injection H as Hc _. subst c'. cbn in Hr'. discriminate.
  - injection H as Hc _. subst c. cbn in Hr. discriminate.
  - injection H as Hc H. subst c'.
    apply andb_true_iff in Hr, Hr'.
    destruct (IH r' (proj2 Hr) (proj2 Hr') H) as [-> ->]. auto.
Qed.

(** Two draws that differ give two different identifiers. *)
Lemma newId_injective (prefix rnd now rnd' now' : string) :
  noSeparator rnd = true -> noSeparator rnd' = true ->
  newId prefix rnd now = newId prefix rnd' now' -> rnd = rnd' /\ now = now'.
Proof.
  intros Hr Hr' H. unfold newId in H.
  apply append_cancel_l in H. cbn in H. injection H as H.
  apply separated_inj; assumption.
Qed.

Lemma filter_all_true {A : Type} (f : A -> bool) l :
  (forall x, In x l -> f x = true) -> filter f l = l.
Proof.
  induction l as [| a l IH]; intros H; [reflexivity |]. cbn.
  rewrite (H a (or_introl eq_refl)). f_equal. apply IH.
  intros x Hx. apply H. right. exact Hx.
Qed.

Lemma AppData_eta d : mkAppData (contractors d) (labours d) (attendance d) = d.
Proof. destruct d; reflexivity. Qed.

Lemma onAddContractor_rejects name note rnd now d :
  trim name = "" -> onAddContractor name note rnd now d = d.
Proof. intros H. unfold onAddContractor. rewrite H. reflexivity. Qed.

Lemma onAddContractor_accepts name note rnd now d :
  trim name <> "" ->
  onAddContractor name note rnd now d =
  upsertContractor (trim name)
    (if (trim note =? "")%string then None else Some (trim note)) rnd now d.
Proof.
  intros H. unfold onAddContractor.
  destruct (String.eqb_spec (trim name) ""); [contradiction | reflexivity].
Qed.

(** The mutation itself does not look at the name: validation is the click
    handler's. *)
Lemma upsertContractor_appends name note rnd now d :
  contractors (upsertContractor name note rnd now d) =
  contractors d ++ [Contractor.mk (newId "ctr" rnd now) name note].
Proof. reflexivity. Qed.

(** C7. Adding a contractor whose name is empty after trimming returns the
    document unchanged; otherwise exactly one contractor is appended, with
    the trimmed name and the identifier [newId] generates from the draws,
    and labourers and attendance are unchanged.  The identifier is not
    compared with those in use: afterwards the contractor ids are pairwise
    distinct exactly when they were before and the identifier is not
    already a contractor's, which is the case when the pair of draws
    differs from the pair behind every contractor id. *)
Theorem onAddContractor_validates (name note rnd now : string) (d : AppData) :
  let d' := onAddContractor name note rnd now d in
  let fresh := newId "ctr" rnd now in
  (trim name = "" -> d' = d) /\
  (trim name <> "" ->
     (exists c,
         contractors d' = contractors d ++ [c] /\
         Contractor.id c = fresh /\
         Contractor.name c = trim name) /\
     labours d' = labours d /\
     attendance d' = attendance d /\
     (contractorIdsDistinct d' <->
      contractorIdsDistinct d /\ ~ In fresh (map Contractor.id (contractors d)))) /\
  (noSeparator rnd = true ->
   (forall c, In c (contractors d) ->
      exists rnd' now', Contractor.id c = newId "ctr" rnd' now' /\
                        noSeparator rnd' = true /\ (rnd', now') <> (rnd, now)) ->
   ~ In fresh (map Contractor.id (contractors d))).
Proof.
  intros d' fresh. split; [| split].
  - apply onAddContractor_rejects.
  - intros H. unfold d'. rewrite (onAddContractor_accepts _ _ _ _ _ H).
    split; [eexists; repeat split |]. split; [reflexivity |]. split; [reflexivity |].
    unfold contractorIdsDistinct. cbn [contractors upsertContractor].
    rewrite map_app. cbn [map Contractor.id]. fold fresh. split.
    + intros Hnd. split; [exact (NoDup_app_remove_r _ _ Hnd) |].
      intros Hin. apply NoDup_remove_2 in Hnd. apply Hnd.
      rewrite app_nil_r. exact Hin.
    + intros [Hnd Hnew]. apply NoDup_app.
      * exact Hnd.
      * constructor; [intros [] | constructor].
      * intros x Hx [<- | []]. exact (Hnew Hx).
  - intros Hr Hall Hin. apply in_map_iff in Hin. destruct Hin as (c & Hid & Hc).
    destruct (Hall c Hc) as (rnd' & now' & Hid' & Hr' & Hne).
    unfold fresh in Hid. rewrite Hid' in Hid.
    destruct (newId_injective _ _ _ _ _ Hr' Hr Hid) as [-> ->].
    apply Hne. reflexivity.
Qed.

Lemma onAddContractor_validates_witness :
  onAddContractor "   " "note" "k3x" "m0" initialData = initialData /\
  contractors (onAddContractor " Ravi Plumbing " "" "k3x" "m0" initialData) =
    [Contractor.mk "ctr_k3x_m0" "Ravi Plumbing" None] /\
  contractorIdsDistinct (onAddContractor " Ravi Plumbing " "" "k3x" "m0" initialData).
Proof.
  split; [| split].
  - apply (onAddContractor_validates "   " "note" "k3x" "m0" initialData). reflexivity.
  - reflexivity.
  - apply (onAddContractor_validates " Ravi Plumbing " "" "k3x" "m0" initialData).
    + discriminate.
    + split; [constructor | intros []].
Defined.

(** C7 as stated fails when a draw repeats: two contractors added with the
    same random and time draws carry the same identifier. *)
Lemma onAddContractor_counterexample :
  let d1 := onAddContractor "Ravi Plumbing" "" "k3x" "m0" initialData in
  let d2 := onAddContractor "Acme Pipes" "" "k3x" "m0" d1 in
  reachable d2 /\
  contractorIdsDistinct d1 /\
  contractors d2 = [Contractor.mk "ctr_k3x_m0" "Ravi Plumbing" None;
                    Contractor.mk "ctr_k3x_m0" "Acme Pipes" None] /\
  ~ contractorIdsDistinct d2.
Proof.
  intros d1 d2. split; [unfold d2, d1; repeat constructor |].
  split; [repeat constructor; intros [] |]. split; [reflexivity |].
  unfold contractorIdsDistinct. cbn. intros H.
  inversion H as [| ? ? Hnin _]. apply Hnin. left. reflexivity.
Qed.

(** C9. Adding a contractor and then removing the contractor just created
    gives back the document, when the generated identifier occurs nowhere
    in the document. *)
Theorem add_then_remove_contractor (name note rnd now : string) (d : AppData) :
  trim name <> "" ->
  ~ In (newId "ctr" rnd now) (docIds d) ->
  removeContractor (newId "ctr" rnd now) (onAddContractor name note rnd now d) = d.
Proof.
  intros Hname Hfresh. rewrite (onAddContractor_accepts _ _ _ _ _ Hname).
  set (fresh := newId "ctr" rnd now) in *.
  unfold docIds in Hfresh. rewrite !in_app_iff in Hfresh.
  unfold removeContractor, upsertContractor. cbn [contractors labours attendance].
  fold fresh.
  rewrite filter_app. cbn [filter Contractor.id]. rewrite String.eqb_refl. cbn [negb].
  rewrite app_nil_r.
  rewrite !filter_all_true.
  - apply AppData_eta.
  - intros a Ha. unfold ownerIsNot.
    destruct (find _ (labours d)) as [l |] eqn:E; [| reflexivity].
    apply find_some in E. destruct E as [Hl _].
    apply negb_true_iff, String.eqb_neq. intros Heq. apply Hfresh.
    right; right; left. rewrite <- Heq. apply in_map, Hl.
  - intros l Hl. apply negb_true_iff, String.eqb_neq. intros Heq. apply Hfresh.
    right; right; left. rewrite <- Heq. apply in_map, Hl.
  - intros c Hc. apply negb_true_iff, String.eqb_neq. intros Heq. apply Hfresh.
    left. rewrite <- Heq. apply in_map, Hc.
Qed.

Lemma add_then_remove_contractor_witness :
  removeContractor (newId "ctr" "q7" "m2")
    (onAddContractor "Acme Pipes" "" "q7" "m2" scenario) = scenario.
Proof.
  apply add_then_remove_contractor.
  - vm_compute. discriminate.
  - vm_compute. intuition discriminate.
Defined.

(** ** Removing a contractor *)

Lemma ownerIsNot_false_iff id ls a :
  ownerIsNot id ls a = false ->
  exists l, In l ls /\ Labour.id l = AttendanceRecord.labourId a /\
            Labour.contractorId l = id.
Proof.
  unfold ownerIsNot.
  destruct (find _ ls) as [l |] eqn:E; [| discriminate].
  intros H. apply negb_false_iff, String.eqb_eq in H.
  apply find_some in E. destruct E as [Hin Heq]. apply String.eqb_eq in Heq.
  exists l. auto.
Qed.

Lemma find_unique_id ls l :
  NoDup (map Labour.id ls) -> In l ls ->
  find (fun l' => Labour.id l' =? Labour.id l)%string ls = Some l.
Proof.
  induction ls as [| x ls IH]; intros Hnd Hin; [destruct Hin |].
  cbn in Hnd. inversion Hnd as [| ? ? Hnin Hnd']; subst. cbn.
  destruct Hin as [-> | Hin].
  - rewrite String.eqb_refl. reflexivity.
  - destruct (String.eqb_spec (Labour.id x) (Labour.id l)) as [Heq | _].
    + exfalso. apply Hnin. rewrite Heq. apply in_map, Hin.
    + apply IH; assumption.
Qed.

(** C3, as the code has it.  After [removeContractor C]: no contractor has
    id [C]; no labourer has contractorId [C]; when labourer ids are pairwise
    distinct, no attendance record carries the id of a labourer that was
    under [C]; contractors with another id, labourers under another
    contractor and records whose labourId is not that of a labourer under
    [C] are kept as they are, in their order; and the document is returned
    unchanged when no contractor has id [C] and no labourer has
    contractorId [C]. *)
Theorem removeContractor_cascade (C : string) (d : AppData) :
  let d' := removeContractor C d in
  (forall c, In c (contractors d') -> Contractor.id c <> C) /\
  (forall l, In l (labours d') -> Labour.contractorId l <> C) /\
  (labourIdsDistinct d ->
   forall a l, In a (attendance d') -> In l (labours d) ->
               Labour.contractorId l = C ->
               AttendanceRecord.labourId a <> Labour.id l) /\
  contractors d' = filter (fun c => negb (Contractor.id c =? C)%string) (contractors d) /\
  labours d' = filter (fun l => negb (Labour.contractorId l =? C)%string) (labours d) /\
  (exists keep, attendance d' = filter keep (attendance d)) /\
  (forall a, In a (attendance d) ->
     (forall l, In l (labours d) -> Labour.id l = AttendanceRecord.labourId a ->
                Labour.contractorId l <> C) ->
     In a (attendance d')) /\
  ((forall c, In c (contractors d) -> Contractor.id c <> C) ->
   (forall l, In l (labours d) -> Labour.contractorId l <> C) ->
   d' = d).
Proof.
  intros d'. unfold d', removeContractor. cbn [contractors labours attendance].
  repeat split.
  - intros c Hc. apply filter_In in Hc. destruct Hc as [_ Hc].
    apply negb_true_iff, String.eqb_neq in Hc. exact Hc.
  - intros l Hl. apply filter_In in Hl. destruct Hl as [_ Hl].
    apply negb_true_iff, String.eqb_neq in Hl. exact Hl.
  - intros Hnd a l Ha Hl HC Heq.
    apply filter_In in Ha. destruct Ha as [_ Ha].
    unfold ownerIsNot in Ha. rewrite Heq in Ha.
    rewrite (find_unique_id _ _ Hnd Hl) in Ha.
    rewrite HC, String.eqb_refl in Ha. discriminate.
  - eexists. reflexivity.
  - intros a Ha Hown. apply filter_In. split; [exact Ha |].
    destruct (ownerIsNot C (labours d) a) eqn:E; [reflexivity |].
    apply ownerIsNot_false_iff in E. destruct E as (l & Hl & Hid & HC).
    exfalso. exact (Hown l Hl Hid HC).
  - intros Hc Hl. rewrite !filter_all_true.
    + apply AppData_eta.
    + intros a Ha. destruct (ownerIsNot C (labours d) a) eqn:E; [reflexivity |].
      apply ownerIsNot_false_iff in E. destruct E as (l & Hin & _ & HC).
      exfalso. exact (Hl l Hin HC).
    + intros l Hin. apply negb_true_iff, String.eqb_neq, Hl, Hin.
    + intros c Hin. apply negb_true_iff, String.eqb_neq, Hc, Hin.
Qed.

Lemma removeContractor_cascade_witness :
  removeContractor "ctr_p0_m0" scenario = mkAppData [] [] [] /\
  removeContractor "ctr_zz_m9" scenario = scenario.
Proof.
  split.
  - reflexivity.
  - apply (removeContractor_cascade "ctr_zz_m9" scenario).
    + vm_compute. intuition (subst; discriminate).
    + vm_compute. intuition (subst; discriminate).
Defined.

(** C3 as stated fails twice.  A labourer added under a contractor id that
    no contractor carries is removed although "no Contractor with id C
    exists"; and with two labourers sharing an id, the record of the removed
    one survives because the owner is looked up by first match. *)
Lemma removeContractor_counterexample :
  let d1 := onAddLabour "C" "Suresh" (Finite (800 # 1)) "p1" "m1" initialData in
  let d2 := mkAppData
              [Contractor.mk "A" "Ann" None; Contractor.mk "C" "Cy" None]
              [Labour.mk "x" "A" "Asha" 700; Labour.mk "x" "C" "Chand" 800]
              [AttendanceRecord.mk "x:2024-03-05" "x" "2024-03-05" true] in
  (reachable d1 /\ contractors d1 = [] /\
   labours d1 = [Labour.mk "lab_p1_m1" "C" "Suresh" 800] /\
   labours (removeContractor "C" d1) = [] /\
   removeContractor "C" d1 <> d1) /\
  (labours (removeContractor "C" d2) = [Labour.mk "x" "A" "Asha" 700] /\
   attendance (removeContractor "C" d2) =
     [AttendanceRecord.mk "x:2024-03-05" "x" "2024-03-05" true]).
Proof.
  intros d1 d2. split; [| split; reflexivity].
  repeat split.
  - unfold d1. repeat constructor.
  - discriminate.
Qed.

(** ** Adding a labourer *)

Lemma onAddLabour_rejects labCtr labName rate rnd now d :
  labCtr = "" \/ trim labName = "" \/ Number_isFinite rate = false \/ leZero rate = true ->
  onAddLabour labCtr labName rate rnd now d = d.
Proof.
  intros H. unfold onAddLabour.
  destruct ((labCtr =? "")%string || (trim labName =? "")%string
            || negb (Number_isFinite rate) || leZero rate)%bool eqn:E; [reflexivity |].
  rewrite !orb_false_iff, negb_false_iff in E. destruct E as (((E1 & E2) & E3) & E4).
  apply String.eqb_neq in E1, E2.
  destruct H as [H | [H | [H | H]]]; congruence.
Qed.

Lemma onAddLabour_accepts labCtr labName q rnd now d :
  labCtr <> "" -> trim labName <> "" -> (0 < q)%Q ->
  onAddLabour labCtr labName (Finite q) rnd now d =
  upsertLabour labCtr (trim labName) (Math_round q) rnd now d.
Proof.
  intros H1 H2 H3. unfold onAddLabour.
  apply String.eqb_neq in H1, H2. rewrite H1, H2. cbn.
  destruct (Qle_bool q 0) eqn:E; [| reflexivity].
  apply Qle_bool_iff in E. exfalso. apply (Qlt_not_le _ _ H3 E).
Qed.

(** [Math.round] is the nearest integer, ties upwards. *)
Lemma Math_round_nearest q :
  (inject_Z (Math_round q) - (1 # 2) <= q)%Q /\ (q < inject_Z (Math_round q) + (1 # 2))%Q.
Proof.
  unfold Math_round.
  pose proof (Qfloor_le (q + (1 # 2))) as Hlo.
  pose proof (Qlt_floor (q + (1 # 2))) as Hhi.
  rewrite inject_Z_plus in Hhi. change (inject_Z 1) with 1%Q in Hhi.
  split; lra.
Qed.

Lemma Math_round_small q : (0 < q)%Q -> (q < 1 # 2)%Q -> Math_round q = 0.
Proof.
  intros H0 H1. destruct (Math_round_nearest q) as [Hlo Hhi].
  assert (A : (inject_Z (-1) < inject_Z (Math_round q))%Q).
  { change (inject_Z (-1)) with (-1)%Q. lra. }
  assert (B : (inject_Z (Math_round q) < inject_Z 1)%Q).
  { change (inject_Z 1) with 1%Q. lra. }
  rewrite <- Zlt_Qlt in A, B. lia.
Qed.

Lemma Math_round_positive q : (1 # 2 <= q)%Q -> 0 < Math_round q.
Proof.
  intros H. destruct (Math_round_nearest q) as [Hlo Hhi].
  assert (A : (inject_Z 0 < inject_Z (Math_round q))%Q).
  { change (inject_Z 0) with 0%Q. lra. }
  rewrite <- Zlt_Qlt in A. exact A.
Qed.

(** A rate the validation lets through and [Math.round] turns into 0. *)
Lemma onAddLabour_small_rate labCtr labName q rnd now d :
  labCtr <> "" -> trim labName <> "" -> (0 < q)%Q -> (q < 1 # 2)%Q ->
  labours (onAddLabour labCtr labName (Finite q) rnd now d) =
  labours d ++ [Labour.mk (newId "lab" rnd now) labCtr (trim labName) 0].
Proof.
  intros H1 H2 H3 H4. rewrite onAddLabour_accepts by assumption.
  unfold upsertLabour. cbn [labours]. rewrite Math_round_small by assumption. reflexivity.
Qed.

(** C8 at the input that breaks it: a daily rate of one quarter is finite
    and positive, passes the validation, and is stored as 0. *)
Theorem onAddLabour_stores_zero_rate :
  labours (onAddLabour "ctr_p0_m0" "Suresh" (Finite (1 # 4)) "p1" "m1" initialData) =
  [Labour.mk "lab_p1_m1" "ctr_p0_m0" "Suresh" 0].
Proof. reflexivity. Qed.

(* ================================================================== *)
(** * Aggregation over a month *)
(* ================================================================== *)

(** ** Days present in a month *)

Lemma toYMD_dayKey (t : Date) :
  0 <= YearFromDay (Day t) <= 9999 -> toYMD t = dayKey (Day t).
Proof.
  intros Hy. unfold toYMD, toISOString, isoYear, dayKey, ymd.
  destruct (Z.leb_spec 0 (YearFromDay (Day t))); [| lia].
  destruct (Z.leb_spec (YearFromDay (Day t)) 9999); [| lia].
  reflexivity.
Qed.

Lemma utcDay_newDate_west tz y m d :
  -1440 < tz <= 0 -> Day (newDate tz y m d) = MakeDay (fullYear y) m d.
Proof.
  intros H. unfold Day, newDate, msPerDay, msPerMinute.
  generalize (MakeDay (fullYear y) m d). intros n. Z.div_mod_to_equations. lia.
Qed.

Lemma utcDay_newDate_east tz y m d :
  0 < tz <= 1440 -> Day (newDate tz y m d) = MakeDay (fullYear y) m d - 1.
Proof.
  intros H. unfold Day, newDate, msPerDay, msPerMinute.
  generalize (MakeDay (fullYear y) m d). intros n. Z.div_mod_to_equations. lia.
Qed.

Lemma dayKey_MakeDay y m d :
  0 <= m < 12 -> 1 <= d <= daysInMonth y m -> dayKey (MakeDay y m d) = ymd y m d.
Proof.
  intros Hm Hd. unfold dayKey.
  destruct (civil_of_MakeDay y m d Hm Hd) as (-> & -> & ->). reflexivity.
Qed.

(** West of Greenwich (and at it) the bounds are the first and the last day
    of the month, and the count is the one the specification describes. *)
Lemma daysPresentFor_west_of_utc tz data labourId month :
  -1440 < tz <= 0 ->
  99 < getFullYear tz month <= 9999 ->
  daysPresentFor tz data labourId month =
  Z.of_nat (length (filter (countedInMonth labourId (getFullYear tz month)
                                           (getMonth tz month))
                           (attendance data))).
Proof.
  intros Htz Hy. unfold daysPresentFor.
  set (y := getFullYear tz month) in *. set (mo := getMonth tz month) in *.
  pose proof (getMonth_range tz month) as Hmo. fold mo in Hmo.
  pose proof (daysInMonth_pos y mo) as Hdim.
  assert (Hplain : fullYear y = y) by (apply fullYear_plain; right; lia).
  assert (Hfirst : toYMD (startOfMonth tz month) = ymd y mo 1).
  { unfold startOfMonth. fold y mo.
    rewrite toYMD_dayKey; rewrite utcDay_newDate_west by exact Htz; rewrite Hplain.
    - apply dayKey_MakeDay; [exact Hmo | lia].
    - destruct (civil_of_MakeDay y mo 1) as (-> & _); [exact Hmo | lia | lia]. }
  assert (Hlast : toYMD (endOfMonth tz month) = ymd y mo (daysInMonth y mo)).
  { unfold endOfMonth. fold y mo.
    rewrite toYMD_dayKey; rewrite utcDay_newDate_west by exact Htz; rewrite Hplain;
      rewrite MakeDay_month_end by exact Hmo.
    - apply dayKey_MakeDay; [exact Hmo | lia].
    - destruct (civil_of_MakeDay y mo (daysInMonth y mo)) as (-> & _);
        [exact Hmo | lia | lia]. }
  rewrite Hfirst, Hlast. do 2 f_equal. apply filter_ext. intros a.
  unfold inMonthRange, countedInMonth.
  destruct (AttendanceRecord.labourId a =? labourId)%string,
           (AttendanceRecord.present a),
           (ymd y mo 1 <=? AttendanceRecord.date a)%string,
           (AttendanceRecord.date a <=? ymd y mo (daysInMonth y mo))%string;
    reflexivity.
Qed.

(** East of Greenwich both bounds are the date keys of the day before. *)
Lemma daysPresentFor_east_of_utc tz data labourId month :
  0 < tz <= 1440 ->
  let y := getFullYear tz month in
  let mo := getMonth tz month in
  let first := MakeDay y mo 1 in
  let last := MakeDay y mo (daysInMonth y mo) in
  plainYear y -> 0 <= YearFromDay (first - 1) -> y <= 9999 ->
  daysPresentFor tz data labourId month =
  Z.of_nat (length (filter (inMonthRange (dayKey (first - 1)) (dayKey (last - 1)) labourId)
                           (attendance data))).
Proof.
  intros Htz y mo first last Hy Hlo Hhi. unfold daysPresentFor.
  pose proof (getMonth_range tz month) as Hmo. fold mo in Hmo.
  pose proof (daysInMonth_pos y mo) as Hdim.
  assert (Hplain : fullYear y = y) by (apply fullYear_plain; exact Hy).
  destruct (civil_of_MakeDay y mo 1) as (Hy1 & _); [exact Hmo | lia |].
  destruct (civil_of_MakeDay y mo (daysInMonth y mo)) as (Hy2 & _); [exact Hmo | lia |].
  fold first in Hy1. fold last in Hy2.
  assert (Hmono : forall a b, a <= b -> YearFromDay a <= YearFromDay b).
  { intros a b Hab.
    pose proof (YearFromDay_bounds a) as [A1 A2].
    pose proof (YearFromDay_bounds b) as [B1 B2].
    destruct (Z.le_gt_cases (YearFromDay a) (YearFromDay b)) as [| Hgt]; [assumption |].
    exfalso.
    assert (DayFromYear (YearFromDay b + 1) <= DayFromYear (YearFromDay a)).
    { destruct (Z.eq_dec (YearFromDay b + 1) (YearFromDay a)) as [-> | Hne]; [lia |].
      apply Z.lt_le_incl, DayFromYear_lt. lia. }
    lia. }
  assert (Hle : first <= last) by (unfold first, last, MakeDay; lia).
  assert (Hfirst : toYMD (startOfMonth tz month) = dayKey (first - 1)).
  { unfold startOfMonth. fold y mo.
    rewrite toYMD_dayKey; rewrite utcDay_newDate_east by exact Htz;
      rewrite Hplain; fold first.
    - reflexivity.
    - pose proof (Hmono (first - 1) first ltac:(lia)). lia. }
  assert (Hlast : toYMD (endOfMonth tz month) = dayKey (last - 1)).
  { unfold endOfMonth. fold y mo.
    rewrite toYMD_dayKey; rewrite utcDay_newDate_east by exact Htz;
      rewrite Hplain; rewrite MakeDay_month_end by exact Hmo; fold last.
    - reflexivity.
    - pose proof (Hmono (first - 1) (last - 1) ltac:(lia)).
      pose proof (Hmono (last - 1) last ltac:(lia)). lia. }
  rewrite Hfirst, Hlast. reflexivity.
Qed.

(** C2 at the input that breaks it.  In a zone east of Greenwich (here
    UTC+05:30) the month bounds are printed in UTC, one day early: a record
    dated on the last day of March 2024 is not counted for March, and a
    record dated on the last day of February is. *)
Theorem daysPresentFor_counts_utc_shifted_month :
  let lastOfMarch := setAttendance "lab_p1_m1" "2024-03-31" true initialData in
  let lastOfFebruary := setAttendance "lab_p1_m1" "2024-02-29" true initialData in
  toYMD (startOfMonth 330 (march2024 330)) = "2024-02-29" /\
  toYMD (endOfMonth 330 (march2024 330)) = "2024-03-30" /\
  daysPresentFor 330 lastOfMarch "lab_p1_m1" (march2024 330) = 0 /\
  daysPresentFor 330 lastOfFebruary "lab_p1_m1" (march2024 330) = 1 /\
  daysPresentFor 0 lastOfMarch "lab_p1_m1" (march2024 0) = 1 /\
  daysPresentFor 0 lastOfFebruary "lab_p1_m1" (march2024 0) = 0.
Proof. vm_compute. repeat split. Qed.

(** ** Monthly totals *)

Lemma sumZ_cons x l : sumZ (x :: l) = x + sumZ l.
Proof. reflexivity. Qed.

Lemma sumZ_app l1 l2 : sumZ (l1 ++ l2) = sumZ l1 + sumZ l2.
Proof.
  induction l1 as [| x l1 IH]; [reflexivity |].
  cbn [app sumZ fold_right]. fold (sumZ (l1 ++ l2)) (sumZ l1). lia.
Qed.

Lemma sumZ_Permutation l l' : Permutation l l' -> sumZ l = sumZ l'.
Proof. induction 1; rewrite ?sumZ_cons; lia. Qed.

Lemma sumZ_nonneg {A : Type} (f : A -> Z) l :
  (forall a, 0 <= f a) -> 0 <= sumZ (map f l).
Proof.
  intros H. induction l as [| a l IH]; [cbn; lia |].
  cbn [map]. rewrite sumZ_cons. pose proof (H a). lia.
Qed.

Lemma sumZ_abs_le {A : Type} (f : A -> Z) l :
  Z.abs (sumZ (map f l)) <= sumZ (map (fun a => Z.abs (f a)) l).
Proof.
  induction l as [| a l IH]; [cbn; lia |].
  cbn [map]. rewrite !sumZ_cons. lia.
Qed.

Lemma sumZ_filter_le {A : Type} (f : A -> Z) (p : A -> bool) l :
  (forall a, 0 <= f a) -> sumZ (map f (filter p l)) <= sumZ (map f l).
Proof.
  intros H. induction l as [| a l IH]; [cbn; lia |].
  cbn [filter map]. pose proof (H a).
  destruct (p a); cbn [map]; rewrite !sumZ_cons; lia.
Qed.

Lemma sumZ_concat {A : Type} (f : A -> Z) (ls : list (list A)) :
  sumZ (map f (concat ls)) = sumZ (map (fun l => sumZ (map f l)) ls).
Proof.
  induction ls as [| l ls IH]; [reflexivity |].
  cbn [concat map]. rewrite map_app, sumZ_app, sumZ_cons, IH. reflexivity.
Qed.

(** *** Sums that do not round *)

Lemma roundInt_exact z : Z.abs z <= 2 ^ 53 -> roundInt z = Int z.
Proof.
  intros H. unfold roundInt.
  destruct (Z.leb_spec (Z.abs z) (2 ^ 53)); [reflexivity | lia].
Qed.

Lemma add_exact a b : Z.abs (a + b) <= 2 ^ 53 -> add (Int a) (Int b) = Int (a + b).
Proof. intros H. cbn [add]. apply roundInt_exact, H. Qed.

Lemma labourDays_nonneg tz data month l : 0 <= labourDays tz data month l.
Proof. unfold labourDays, daysPresentFor. lia. Qed.

Section ExactSums.
Variables (tz : Z) (data : AppData) (month : Date).

Lemma exactSums_app_l ls ls' :
  exactSums tz data month (ls ++ ls') -> exactSums tz data month ls.
Proof.
  unfold exactSums. rewrite length_app, !map_app, !sumZ_app.
  pose proof (sumZ_nonneg (labourDays tz data month) ls'
                (labourDays_nonneg tz data month)).
  pose proof (sumZ_nonneg (fun l => Z.abs (labourAmount tz data month l)) ls'
                (fun l => Z.abs_nonneg _)).
  lia.
Qed.

Lemma exactSums_filter p ls :
  exactSums tz data month ls -> exactSums tz data month (filter p ls).
Proof.
  unfold exactSums. intros (H1 & H2 & H3).
  pose proof (filter_length_le p ls).
  pose proof (sumZ_filter_le (labourDays tz data month) p ls
                (labourDays_nonneg tz data month)).
  pose proof (sumZ_filter_le (fun l => Z.abs (labourAmount tz data month l)) p ls
                (fun l => Z.abs_nonneg _)).
  lia.
Qed.

Lemma exactSums_Permutation ls ls' :
  Permutation ls ls' -> exactSums tz data month ls -> exactSums tz data month ls'.
Proof.
  unfold exactSums. intros P.
  rewrite (Permutation_length P).
  rewrite (sumZ_Permutation _ _ (Permutation_map (labourDays tz data month) P)).
  rewrite (sumZ_Permutation _ _
             (Permutation_map (fun l => Z.abs (labourAmount tz data month l)) P)).
  tauto.
Qed.

Lemma bucketOf_Permutation ls ls' :
  Permutation ls ls' -> bucketOf tz data month ls = bucketOf tz data month ls'.
Proof.
  intros P. unfold bucketOf.
  rewrite (Permutation_length P).
  rewrite (sumZ_Permutation _ _ (Permutation_map (labourDays tz data month) P)).
  rewrite (sumZ_Permutation _ _ (Permutation_map (labourAmount tz data month) P)).
  reflexivity.
Qed.

(** Adding two exact buckets gives the exact bucket of the joined lists. *)
Lemma addBucket_exact ls ls' :
  exactSums tz data month (ls ++ ls') ->
  addBucket (bucketOf tz data month ls) (bucketOf tz data month ls') =
  bucketOf tz data month (ls ++ ls').
Proof.
  unfold exactSums. rewrite length_app, !map_app, !sumZ_app. intros (H1 & H2 & H3).
  pose proof (sumZ_nonneg (labourDays tz data month) ls (labourDays_nonneg tz data month)).
  pose proof (sumZ_nonneg (labourDays tz data month) ls' (labourDays_nonneg tz data month)).
  pose proof (sumZ_abs_le (labourAmount tz data month) ls).
  pose proof (sumZ_abs_le (labourAmount tz data month) ls').
  unfold addBucket, bucketOf. cbn [days amount labourCount].
  rewrite length_app, !map_app, !sumZ_app, !add_exact by lia.
  f_equal. f_equal. lia.
Qed.

(** One more labourer on an exact bucket. *)
Lemma bumpBucket_exact ls l :
  exactSums tz data month (ls ++ [l]) ->
  bumpBucket tz data month (bucketOf tz data month ls) l =
  bucketOf tz data month (ls ++ [l]).
Proof.
  intros H. rewrite <- (addBucket_exact _ _ H).
  unfold bumpBucket, addBucket, bucketOf. cbn [days amount labourCount map length].
  rewrite !sumZ_cons. change (sumZ []) with 0. rewrite !Z.add_0_r.
  f_equal. f_equal. apply roundInt_exact.
  destruct H as (_ & _ & H). rewrite map_app, sumZ_app in H. cbn [map] in H.
  rewrite sumZ_cons in H. change (sumZ []) with 0 in H.
  pose proof (sumZ_nonneg (fun l => Z.abs (labourAmount tz data month l)) ls
                (fun l => Z.abs_nonneg _)).
  lia.
Qed.

Lemma bump_fold ls : forall pre,
  exactSums tz data month (pre ++ ls) ->
  fold_left (bumpBucket tz data month) ls (bucketOf tz data month pre) =
  bucketOf tz data month (pre ++ ls).
Proof.
  induction ls as [| l ls IH]; intros pre H.
  - rewrite app_nil_r. reflexivity.
  - cbn [fold_left].
    replace (pre ++ l :: ls) with ((pre ++ [l]) ++ ls) in *
      by (rewrite <- app_assoc; reflexivity).
    rewrite bumpBucket_exact by (apply (exactSums_app_l _ _ H)).
    apply IH, H.
Qed.

Lemma fold_addBucket gs : forall pre,
  exactSums tz data month (pre ++ concat gs) ->
  fold_left addBucket (map (bucketOf tz data month) gs) (bucketOf tz data month pre) =
  bucketOf tz data month (pre ++ concat gs).
Proof.
  induction gs as [| g gs IH]; intros pre H.
  - cbn. rewrite app_nil_r. reflexivity.
  - cbn [map fold_left concat] in *.
    rewrite app_assoc in H |- *.
    rewrite addBucket_exact by (apply (exactSums_app_l _ _ H)).
    apply IH, H.
Qed.

Lemma reduceBuckets_exact gs :
  exactSums tz data month (concat gs) ->
  reduceBuckets (map (bucketOf tz data month) gs) = bucketOf tz data month (concat gs).
Proof. intros H. apply (fold_addBucket gs [] H). Qed.

End ExactSums.

(** *** The own properties of [byContractor] *)

Lemma lookup_app_some key bc1 bc2 b :
  lookup key bc1 = Some b -> lookup key (bc1 ++ bc2) = Some b.
Proof.
  induction bc1 as [| [k v] bc1 IH]; [discriminate |]. cbn.
  destruct (k =? key)%string; [auto | exact IH].
Qed.

Lemma lookup_app_none key bc1 bc2 :
  lookup key bc1 = None -> lookup key (bc1 ++ bc2) = lookup key bc2.
Proof.
  induction bc1 as [| [k v] bc1 IH]; [reflexivity |]. cbn.
  destruct (k =? key)%string; [discriminate | exact IH].
Qed.

Lemma lookup_none_keys key bc : lookup key bc = None -> ~ In key (map fst bc).
Proof.
  induction bc as [| [k v] bc IH]; cbn; [tauto |].
  destruct (String.eqb_spec k key); [discriminate |]. intros H [E | Hin]; [auto |].
  exact (IH H Hin).
Qed.

Lemma lookup_some_keys key bc b : lookup key bc = Some b -> In key (map fst bc).
Proof.
  induction bc as [| [k v] bc IH]; cbn; [discriminate |].
  destruct (String.eqb_spec k key); [left; assumption | right; auto].
Qed.

Lemma keys_update key f bc : map fst (update key f bc) = map fst bc.
Proof.
  induction bc as [| [k v] bc IH]; [reflexivity |]. cbn.
  destruct (k =? key)%string; cbn; [reflexivity | rewrite IH; reflexivity].
Qed.

Lemma lookup_update_at key c f bc :
  lookup c (update key f bc) =
  if (key =? c)%string then option_map f (lookup c bc) else lookup c bc.
Proof.
  induction bc as [| [k v] bc IH]; [cbn; destruct (key =? c)%string; reflexivity |].
  cbn. destruct (String.eqb_spec k key) as [-> | Hk]; cbn.
  - destruct (String.eqb_spec key c) as [-> | Hc]; reflexivity.
  - rewrite IH. destruct (String.eqb_spec k c) as [-> | Hc]; [| reflexivity].
    destruct (String.eqb_spec key c) as [-> | _]; [contradiction | reflexivity].
Qed.

(** A key that spells an inherited property never becomes an own one. *)
Lemma lookup_ensure_inherited key c bc :
  inherited c = true -> lookup c bc = None -> lookup c (ensure key bc) = None.
Proof.
  intros Hc E. unfold ensure.
  destruct (lookup key bc) eqn:Ek; [exact E |].
  destruct (inherited key) eqn:Hk; [exact E |].
  rewrite lookup_app_none by exact E. cbn.
  destruct (String.eqb_spec key c) as [-> | _]; [congruence | reflexivity].
Qed.

Lemma lookup_ensure_at key c bc :
  inherited c = false ->
  lookup c (ensure key bc) =
  if (key =? c)%string then Some (orZero (lookup c bc)) else lookup c bc.
Proof.
  intros Hc. unfold ensure. destruct (String.eqb_spec key c) as [-> | Hne].
  - destruct (lookup c bc) as [b |] eqn:E; [exact E |]. rewrite Hc.
    rewrite lookup_app_none by exact E. cbn. rewrite String.eqb_refl. reflexivity.
  - destruct (lookup key bc) eqn:Ek; [reflexivity |].
    destruct (inherited key); [reflexivity |].
    destruct (lookup c bc) as [b |] eqn:E.
    + apply lookup_app_some, E.
    + rewrite lookup_app_none by exact E. cbn.
      destruct (String.eqb_spec key c); [contradiction | reflexivity].
Qed.

Lemma keys_ensure key bc :
  NoDup (map fst bc) -> NoDup (map fst (ensure key bc)).
Proof.
  intros H. unfold ensure.
  destruct (lookup key bc) eqn:E; [exact H |].
  destruct (inherited key); [exact H |].
  rewrite map_app. cbn. apply NoDup_app; [exact H | | ].
  - constructor; [intros [] | constructor].
  - intros x Hx [<- | []]. exact (lookup_none_keys _ _ E Hx).
Qed.

Section BucketFacts.
Variables (tz : Z) (data : AppData) (month : Date).

Lemma lookup_accumulate c bc l :
  inherited c = false ->
  lookup c (accumulate tz data month bc l) =
  if (Labour.contractorId l =? c)%string
  then Some (bumpBucket tz data month (orZero (lookup c bc)) l)
  else lookup c bc.
Proof.
  intros Hc. unfold accumulate. rewrite !lookup_update_at, (lookup_ensure_at _ _ _ Hc).
  destruct (Labour.contractorId l =? c)%string; reflexivity.
Qed.

Lemma lookup_accumulate_inherited c bc l :
  inherited c = true -> lookup c bc = None ->
  lookup c (accumulate tz data month bc l) = None.
Proof.
  intros Hc E. unfold accumulate.
  rewrite !lookup_update_at, (lookup_ensure_inherited _ _ _ Hc E).
  destruct (Labour.contractorId l =? c)%string; reflexivity.
Qed.

Lemma keys_accumulate bc l :
  NoDup (map fst bc) -> NoDup (map fst (accumulate tz data month bc l)).
Proof.
  intros H. unfold accumulate. rewrite !keys_update. apply keys_ensure, H.
Qed.

Lemma lookup_fold_accumulate c ls : forall bc,
  inherited c = false ->
  lookup c (fold_left (accumulate tz data month) ls bc) =
  match filter (fun l => (Labour.contractorId l =? c)%string) ls with
  | [] => lookup c bc
  | mine => Some (fold_left (bumpBucket tz data month) mine (orZero (lookup c bc)))
  end.
Proof.
  induction ls as [| l ls IH]; intros bc Hc; [reflexivity |].
  cbn [fold_left filter]. rewrite IH, lookup_accumulate by exact Hc.
  destruct (Labour.contractorId l =? c)%string; [| reflexivity].
  destruct (filter _ ls); reflexivity.
Qed.

Lemma lookup_fold_accumulate_inherited c ls : forall bc,
  inherited c = true -> lookup c bc = None ->
  lookup c (fold_left (accumulate tz data month) ls bc) = None.
Proof.
  induction ls as [| l ls IH]; intros bc Hc E; [exact E |].
  cbn [fold_left]. apply IH; [exact Hc |].
  apply lookup_accumulate_inherited; assumption.
Qed.

Lemma keys_fold_accumulate ls : forall bc,
  NoDup (map fst bc) -> NoDup (map fst (fold_left (accumulate tz data month) ls bc)).
Proof.
  induction ls as [| l ls IH]; intros bc H; [exact H |].
  cbn [fold_left]. apply IH, keys_accumulate, H.
Qed.

(** A key that spells an inherited property has no bucket. *)
Lemma lookup_byContractor_inherited c :
  inherited c = true -> lookup c (byContractor (totals tz data month)) = None.
Proof.
  intros Hc. unfold totals. cbn [byContractor].
  apply lookup_fold_accumulate_inherited; [exact Hc | reflexivity].
Qed.

(** Any other key has a bucket when some labourer carries it. *)
Lemma lookup_byContractor_some c :
  inherited c = false ->
  lookup c (byContractor (totals tz data month)) = None <-> laboursOf c data = [].
Proof.
  intros Hc. unfold totals. cbn [byContractor].
  rewrite lookup_fold_accumulate by exact Hc. unfold laboursOf.
  destruct (filter _ (labours data)); cbn; split; intros H; try reflexivity; discriminate.
Qed.

(** The keys of [byContractor] are the contractor ids of the labourers,
    the inherited ones left out. *)
Lemma keys_byContractor l :
  In l (labours data) ->
  existsb (String.eqb (Labour.contractorId l))
          (map fst (byContractor (totals tz data month))) =
  negb (inherited (Labour.contractorId l)).
Proof.
  intros Hl. set (c := Labour.contractorId l).
  destruct (inherited c) eqn:Hc; cbn [negb].
  - pose proof (lookup_none_keys _ _ (lookup_byContractor_inherited c Hc)) as Hno.
    destruct (existsb _ _) eqn:E; [| reflexivity].
    apply existsb_exists in E. destruct E as (k & Hk & Ek).
    apply String.eqb_eq in Ek. subst k. contradiction.
  - destruct (lookup c (byContractor (totals tz data month))) as [b |] eqn:E.
    + apply existsb_exists. exists c. split; [| apply String.eqb_refl].
      exact (lookup_some_keys _ _ _ E).
    + apply (lookup_byContractor_some c Hc) in E.
      assert (Hin : In l (laboursOf c data)).
      { unfold laboursOf. apply filter_In. split; [exact Hl | apply String.eqb_refl]. }
      rewrite E in Hin. destruct Hin.
Qed.

(** When the sums do not round, the bucket under a key is the exact bucket
    of the labourers that carry the key. *)
Lemma lookup_byContractor c :
  inherited c = false -> exactSums tz data month (labours data) ->
  lookup c (byContractor (totals tz data month)) =
  match laboursOf c data with
  | [] => None
  | mine => Some (bucketOf tz data month mine)
  end.
Proof.
  intros Hc Hex. unfold totals. cbn [byContractor].
  rewrite lookup_fold_accumulate by exact Hc.
  pose proof (exactSums_filter tz data month
                (fun l => (Labour.contractorId l =? c)%string) _ Hex) as Hmine.
  unfold laboursOf. destruct (filter _ (labours data)) as [| l mine]; [reflexivity |].
  f_equal. exact (bump_fold tz data month (l :: mine) [] Hmine).
Qed.

Lemma orZero_byContractor c :
  inherited c = false -> exactSums tz data month (labours data) ->
  orZero (lookup c (byContractor (totals tz data month))) =
  bucketOf tz data month (laboursOf c data).
Proof.
  intros Hc Hex. rewrite lookup_byContractor by assumption.
  destruct (laboursOf c data); reflexivity.
Qed.

End BucketFacts.

(** *** The grand total *)

Lemma assoc_values (bc : Buckets) :
  NoDup (map fst bc) ->
  map snd bc = map (fun k => orZero (lookup k bc)) (map fst bc).
Proof.
  induction bc as [| [k v] bc IH]; intros H; [reflexivity |].
  cbn [map fst snd] in *. inversion H as [| ? ? Hk Hnd]; subst.
  cbn [lookup]. rewrite String.eqb_refl. cbn [orZero]. f_equal.
  rewrite (IH Hnd). apply map_ext_in. intros k' Hk'.
  destruct (String.eqb_spec k k') as [-> | _]; [contradiction | reflexivity].
Qed.

Lemma filter_none {A : Type} (l : list A) : filter (fun _ => false) l = [].
Proof. induction l; [reflexivity | assumption]. Qed.

Lemma filter_or_Permutation {A : Type} (p q : A -> bool) l :
  (forall a, p a = true -> q a = true -> False) ->
  Permutation (filter (fun a => p a || q a) l) (filter p l ++ filter q l).
Proof.
  intros Hdis. induction l as [| a l IH]; [constructor |].
  cbn [filter]. destruct (p a) eqn:Ep, (q a) eqn:Eq; cbn [orb app].
  - destruct (Hdis a Ep Eq).
  - constructor. exact IH.
  - apply Permutation_cons_app. exact IH.
  - exact IH.
Qed.

(** Grouping labourers by distinct keys is a rearrangement of the
    labourers that carry one of the keys. *)
Lemma groups_Permutation (keys : list string) (ls : list Labour.t) :
  NoDup keys ->
  Permutation
    (concat (map (fun k => filter (fun l => (Labour.contractorId l =? k)%string) ls) keys))
    (filter (fun l => existsb (String.eqb (Labour.contractorId l)) keys) ls).
Proof.
  induction 1 as [| k keys Hk Hnd IH]; cbn [map concat existsb].
  - rewrite filter_none. constructor.
  - etransitivity; [apply Permutation_app_head, IH |].
    symmetry. apply filter_or_Permutation.
    intros l Hp Hq. apply String.eqb_eq in Hp. apply existsb_exists in Hq.
    destruct Hq as (k' & Hin & Ek). apply String.eqb_eq in Ek. congruence.
Qed.

Lemma concat_Permutation {A : Type} (ls ls' : list (list A)) :
  Permutation ls ls' -> Permutation (concat ls) (concat ls').
Proof.
  induction 1; cbn [concat].
  - constructor.
  - apply Permutation_app_head. assumption.
  - rewrite !app_assoc. apply Permutation_app_tail, Permutation_app_comm.
  - etransitivity; eassumption.
Qed.

Section GrandFacts.
Variables (tz : Z) (data : AppData) (month : Date).

Lemma keys_not_inherited k :
  In k (map fst (byContractor (totals tz data month))) -> inherited k = false.
Proof.
  intros Hin. destruct (inherited k) eqn:Hk; [| reflexivity].
  destruct (lookup_none_keys _ _ (lookup_byContractor_inherited tz data month k Hk) Hin).
Qed.

Lemma byContractor_NoDup : NoDup (map fst (byContractor (totals tz data month))).
Proof. apply keys_fold_accumulate. constructor. Qed.

Lemma byContractor_values :
  exactSums tz data month (labours data) ->
  map snd (byContractor (totals tz data month)) =
  map (bucketOf tz data month) (groups tz data month).
Proof.
  intros Hex. rewrite (assoc_values _ byContractor_NoDup). unfold groups.
  rewrite (map_map (fun k => laboursOf k data)). apply map_ext_in. intros k Hk.
  apply orZero_byContractor; [apply keys_not_inherited, Hk | exact Hex].
Qed.

Lemma groups_counted :
  Permutation (concat (groups tz data month)) (countedLabours data).
Proof.
  unfold groups, laboursOf, countedLabours.
  etransitivity; [apply groups_Permutation, byContractor_NoDup |].
  erewrite filter_ext_in; [reflexivity |].
  intros l Hl. apply keys_byContractor, Hl.
Qed.

Lemma exactSums_groups gs :
  exactSums tz data month (labours data) -> Permutation gs (groups tz data month) ->
  exactSums tz data month (concat gs).
Proof.
  intros Hex P.
  apply (exactSums_Permutation tz data month (countedLabours data)).
  - symmetry. etransitivity; [apply concat_Permutation, P | apply groups_counted].
  - apply exactSums_filter, Hex.
Qed.

(** Without rounding, [grand] is the exact bucket of the labourers that
    reach a bucket, whatever the order in which the buckets are added. *)
Lemma reduce_any_order vs :
  exactSums tz data month (labours data) ->
  Permutation vs (map snd (byContractor (totals tz data month))) ->
  reduceBuckets vs = bucketOf tz data month (countedLabours data).
Proof.
  intros Hex P. rewrite (byContractor_values Hex) in P.
  apply Permutation_map_inv in P. destruct P as (gs & -> & P).
  apply Permutation_sym in P.
  rewrite reduceBuckets_exact by (apply exactSums_groups; assumption).
  apply bucketOf_Permutation.
  etransitivity; [apply concat_Permutation, P | apply groups_counted].
Qed.

Lemma grand_counted :
  exactSums tz data month (labours data) ->
  grand (totals tz data month) = bucketOf tz data month (countedLabours data).
Proof. intros Hex. apply (reduce_any_order _ Hex), Permutation_refl. Qed.

Lemma countedLabours_all :
  Forall (fun l => inherited (Labour.contractorId l) = false) (labours data) ->
  countedLabours data = labours data.
Proof.
  intros H. unfold countedLabours. apply filter_all_true.
  intros l Hl. rewrite Forall_forall in H. rewrite (H l Hl). reflexivity.
Qed.

End GrandFacts.

Lemma bucketOf_concat tz data month (gs : list (list Labour.t)) :
  let vs := map (bucketOf tz data month) gs in
  bucketOf tz data month (concat gs) =
  mkBucket (Int (sumZ (map (fun b => intOf (days b)) vs)))
           (Int (sumZ (map (fun b => intOf (amount b)) vs)))
           (Int (sumZ (map (fun b => intOf (labourCount b)) vs))).
Proof.
  cbv zeta. unfold bucketOf at 1. rewrite !sumZ_concat, !map_map.
  cbn [bucketOf days amount labourCount intOf]. f_equal. f_equal.
  induction gs as [| g gs IH]; [reflexivity |].
  cbn [concat map]. rewrite length_app, sumZ_cons. lia.
Qed.

(** C1. When the totals of a month are computed without rounding (the
    daily rates are doubles, and the number of labourers, their days
    present and the magnitudes of their amounts add up to at most 2^53),
    the grand bucket is the componentwise sum of the per-contractor
    buckets, in whatever order the buckets are enumerated, and it is the
    exact bucket of the labourers whose contractor id does not spell a
    property of [Object.prototype]; when no labourer has such a contractor
    id, the grand amount is the sum over all labourers of days present
    times daily rate. *)
Theorem totals_grand (tz : Z) (data : AppData) (month : Date) :
  exactTotals tz data month ->
  let t := totals tz data month in
  let buckets := map snd (byContractor t) in
  (Forall (fun l => inherited (Labour.contractorId l) = false) (labours data) ->
   amount (grand t) =
     Int (sumZ (map (fun l => daysPresentFor tz data (Labour.id l) month
                              * Labour.dailyRate l)
                    (labours data))) /\
   days (grand t) =
     Int (sumZ (map (fun l => daysPresentFor tz data (Labour.id l) month)
                    (labours data))) /\
   labourCount (grand t) = Int (Z.of_nat (length (labours data)))) /\
  Forall wholeBucket buckets /\
  grand t = mkBucket (Int (sumZ (map (fun b => intOf (days b)) buckets)))
                     (Int (sumZ (map (fun b => intOf (amount b)) buckets)))
                     (Int (sumZ (map (fun b => intOf (labourCount b)) buckets))) /\
  (forall vs, Permutation vs buckets -> reduceBuckets vs = grand t) /\
  grand t = bucketOf tz data month (countedLabours data).
Proof.
  intros [_ Hex] t buckets.
  pose proof (grand_counted tz data month Hex) as G. fold t in G.
  pose proof (byContractor_values tz data month Hex) as V. fold t buckets in V.
  split; [| split; [| split; [| split]]].
  - intros Hall. rewrite G, (countedLabours_all data Hall).
    unfold bucketOf. cbn [days amount labourCount]. repeat split.
  - rewrite V. apply Forall_forall. intros b Hb. apply in_map_iff in Hb.
    destruct Hb as (g & <- & _). unfold wholeBucket, bucketOf. eauto.
  - rewrite G, <- (bucketOf_Permutation _ _ _ _ _ (groups_counted tz data month)).
    rewrite V. apply bucketOf_concat.
  - intros vs P. rewrite G. apply reduce_any_order; assumption.
  - exact G.
Qed.

(** The scenario of the specification: two days at 800 make 1600. *)
Lemma totals_grand_witness :
  exactTotals 0 scenario (march2024 0) /\
  amount (grand (totals 0 scenario (march2024 0))) = Int 1600 /\
  grand (totals 0 scenario (march2024 0)) = mkBucket (Int 2) (Int 1600) (Int 1) /\
  reduceBuckets (rev (map snd (byContractor (totals 0 scenario (march2024 0))))) =
    grand (totals 0 scenario (march2024 0)).
Proof.
  assert (E : exactTotals 0 scenario (march2024 0)).
  { split; [repeat constructor |]. vm_compute. repeat split; discriminate. }
  assert (K : Forall (fun l => inherited (Labour.contractorId l) = false)
                     (labours scenario)) by (repeat constructor).
  destruct (totals_grand 0 scenario (march2024 0) E)
    as (Hsum & _ & Hgrand & Hperm & _).
  split; [exact E |]. split; [exact (proj1 (Hsum K)) |].
  split; [exact Hgrand |].
  apply Hperm, Permutation_sym, Permutation_rev.
Defined.

(** C1 as stated fails twice.  With daily rates 2^53 and 1 entered through
    the forms under two contractors, and one day present each, the two
    buckets hold 2^53 and 1 but the grand amount is 2^53: the sum rounds.
    And a labourer whose contractor id is ["toString"] gets no bucket,
    because an object literal already has a property of that name: he is
    missing from [grand], and the row of such a contractor reads the
    inherited function. *)
Lemma totals_grand_counterexample :
  let big := 9007199254740992 in
  let d1 :=
    setAttendance "lab_p2_m2" "2024-03-05" true
      (setAttendance "lab_p1_m1" "2024-03-05" true
         (onAddLabour "ctr_q0_m2" "Mahesh" (Finite (1 # 1)) "p2" "m2"
            (onAddLabour "ctr_p0_m0" "Suresh" (Finite (big # 1)) "p1" "m1"
               (onAddContractor "Acme Pipes" "" "q0" "m2"
                  (onAddContractor "Ravi Plumbing" "" "p0" "m0" initialData))))) in
  let d2 :=
    setAttendance "lab_p1_m1" "2024-03-05" true
      (onAddLabour "toString" "Suresh" (Finite (800 # 1)) "p1" "m1" initialData) in
  let t1 := totals 0 d1 (march2024 0) in
  let t2 := totals 0 d2 (march2024 0) in
  let owed := fun d =>
    sumZ (map (fun l => daysPresentFor 0 d (Labour.id l) (march2024 0)
                        * Labour.dailyRate l) (labours d)) in
  (reachable d1 /\
   big = 2 ^ 53 /\
   byContractor t1 = [("ctr_p0_m0", mkBucket (Int 1) (Int big) (Int 1));
                      ("ctr_q0_m2", mkBucket (Int 1) (Int 1) (Int 1))] /\
   amount (grand t1) = Int big /\
   owed d1 = big + 1) /\
  (reachable d2 /\
   labours d2 = [Labour.mk "lab_p1_m1" "toString" "Suresh" 800] /\
   byContractor t2 = [] /\
   grand t2 = zeroBucket /\
   owed d2 = 800 /\
   bucketFor t2 "toString" = RowInherited).
Proof.
  intros big d1 d2 t1 t2 owed. split.
  - split; [unfold d1; repeat constructor |]. vm_compute. repeat split.
  - split; [unfold d2; repeat constructor |]. vm_compute. repeat split.
Qed.

(* ================================================================== *)
(** * Months: start, end and steps *)
(* ================================================================== *)

(** ** Day numbers and calendar fields determine each other *)

Lemma DayWithinYear_range n :
  0 <= DayWithinYear n < DaysInYear (YearFromDay n).
Proof.
  unfold DayWithinYear. pose proof (YearFromDay_bounds n) as H.
  rewrite DayFromYear_succ in H. lia.
Qed.

Lemma MakeDay_of_fields n :
  1 <= DateFromDay n <= daysInMonth (YearFromDay n) (MonthFromDay n) /\
  MakeDay (YearFromDay n) (MonthFromDay n) (DateFromDay n) = n.
Proof.
  pose proof (DayWithinYear_range n) as Hr.
  pose proof (MonthFromDay_range n) as Hm.
  rewrite MakeDay_in_range by exact Hm.
  unfold DateFromDay. unfold DayWithinYear at 3.
  split; [| lia].
  revert Hr. unfold MonthFromDay, DaysInYear, daysInMonth.
  generalize (DayWithinYear n). intros d.
  destruct (isLeap (YearFromDay n)); cbn; intros Hr;
    repeat match goal with
           | |- context [?a <? ?b] => destruct (Z.ltb_spec a b); cbn; try lia
           end.
Qed.

Lemma YearFromDay_le a b : a <= b -> YearFromDay a <= YearFromDay b.
Proof.
  intros Hab.
  pose proof (YearFromDay_bounds a) as [A1 A2].
  pose proof (YearFromDay_bounds b) as [B1 B2].
  destruct (Z.le_gt_cases (YearFromDay a) (YearFromDay b)) as [| Hgt]; [assumption |].
  exfalso.
  assert (DayFromYear (YearFromDay b + 1) <= DayFromYear (YearFromDay a)).
  { destruct (Z.eq_dec (YearFromDay b + 1) (YearFromDay a)) as [-> | Hne]; [lia |].
    apply Z.lt_le_incl, DayFromYear_lt. lia. }
  lia.
Qed.

Lemma MakeDay_normalize y m d : MakeDay y m d = MakeDay (y + m / 12) (m mod 12) d.
Proof.
  unfold MakeDay.
  rewrite (Z.div_small (m mod 12)) by (apply Z.mod_pos_bound; lia).
  rewrite Z.mod_mod by lia. rewrite Z.add_0_r. reflexivity.
Qed.


(** ** Month arithmetic on dates *)

Section MonthArithmetic.
Variable tz : Z.

Lemma localDay_fields t :
  MakeDay (getFullYear tz t) (getMonth tz t) (getDate tz t) = Day (LocalTime tz t) /\
  1 <= getDate tz t <= daysInMonth (getFullYear tz t) (getMonth tz t).
Proof.
  unfold getFullYear, getMonth, getDate.
  destruct (MakeDay_of_fields (Day (LocalTime tz t))) as [H1 H2]. auto.
Qed.

Lemma newDate_same_day y m d y' m' d' :
  plainYear y -> plainYear y' ->
  MakeDay y m d = MakeDay y' m' d' -> newDate tz y m d = newDate tz y' m' d'.
Proof.
  intros Hy Hy' E. unfold newDate.
  rewrite (fullYear_plain y Hy), (fullYear_plain y' Hy'), E. reflexivity.
Qed.

Lemma addMonths_fields t count :
  plainYear (getFullYear tz t) ->
  getFullYear tz (addMonths tz t count) = getFullYear tz t + (getMonth tz t + count) / 12 /\
  getMonth tz (addMonths tz t count) = (getMonth tz t + count) mod 12 /\
  getDate tz (addMonths tz t count) = 1.
Proof.
  intros Hplain. unfold addMonths.
  set (y := getFullYear tz t) in *. set (m := getMonth tz t).
  unfold getFullYear at 1, getMonth at 1, getDate.
  rewrite Day_newDate, (fullYear_plain y Hplain), MakeDay_normalize.
  apply civil_of_MakeDay.
  - apply Z.mod_pos_bound. lia.
  - pose proof (daysInMonth_pos (y + (m + count) / 12) ((m + count) mod 12)). lia.
Qed.

Lemma addMonths_add t a b :
  plainYear (getFullYear tz t) ->
  plainYear (getFullYear tz (addMonths tz t a)) ->
  addMonths tz (addMonths tz t a) b = addMonths tz t (a + b).
Proof.
  intros Hplain Hplain'.
  destruct (addMonths_fields t a Hplain) as (Hy & Hm & _).
  rewrite Hy in Hplain'.
  unfold addMonths at 1. rewrite Hy, Hm. unfold addMonths.
  set (y := getFullYear tz t) in *. set (m := getMonth tz t) in *.
  apply newDate_same_day; [exact Hplain' | exact Hplain |].
  rewrite (MakeDay_normalize y (m + (a + b))), (MakeDay_normalize (y + (m + a) / 12)).
  f_equal.
  - Z.div_mod_to_equations. lia.
  - Z.div_mod_to_equations. lia.
Qed.

Lemma addMonths_zero t : addMonths tz t 0 = startOfMonth tz t.
Proof. unfold addMonths, startOfMonth. rewrite Z.add_0_r. reflexivity. Qed.

Lemma MakeDay_next_month y m : 0 <= m < 12 ->
  MakeDay y (m + 1) 1 = MakeDay y m (daysInMonth y m) + 1.
Proof.
  intros Hm. rewrite <- MakeDay_month_end by exact Hm. unfold MakeDay. lia.
Qed.

Lemma Day_time_bounds x : Day x * msPerDay <= x < (Day x + 1) * msPerDay.
Proof. unfold Day, msPerDay. Z.div_mod_to_equations. lia. Qed.

End MonthArithmetic.

(** X1. [startOfMonth] returns the first instant of the local month that
    contains its argument: the local fields are the same year and month and
    day 1, applying it again changes nothing, and the argument lies between
    it and the start of the following month (local year taken as given). *)
Theorem startOfMonth_first_instant (tz : Z) (t : Date) :
  plainYear (getFullYear tz t) ->
  getFullYear tz (startOfMonth tz t) = getFullYear tz t /\
  getMonth tz (startOfMonth tz t) = getMonth tz t /\
  getDate tz (startOfMonth tz t) = 1 /\
  startOfMonth tz (startOfMonth tz t) = startOfMonth tz t /\
  startOfMonth tz t <= t < addMonths tz t 1.
Proof.
  intros Hplain.
  destruct (startOfMonth_fields tz t Hplain) as (Hy & Hm & Hd).
  split; [exact Hy |]. split; [exact Hm |]. split; [exact Hd |]. split.
  - unfold startOfMonth at 1. rewrite Hy, Hm. reflexivity.
  - destruct (localDay_fields tz t) as [Hn Hrange].
    pose proof (getMonth_range tz t) as Hmo.
    pose proof (Day_time_bounds (LocalTime tz t)) as Hb.
    unfold startOfMonth, addMonths, newDate.
    rewrite (fullYear_plain _ Hplain).
    set (y := getFullYear tz t) in *. set (m := getMonth tz t) in *.
    set (d := getDate tz t) in *.
    assert (H1 : MakeDay y m 1 <= Day (LocalTime tz t)).
    { rewrite <- Hn. unfold MakeDay. lia. }
    assert (H2 : Day (LocalTime tz t) + 1 <= MakeDay y (m + 1) 1).
    { rewrite MakeDay_next_month by exact Hmo.
      rewrite <- Hn. unfold MakeDay. lia. }
    unfold LocalTime in *. unfold msPerDay, msPerMinute in *.
    generalize dependent (Day (t + tz * 60000)). intros n _ Hb H1 H2.
    generalize dependent (MakeDay y m 1). generalize dependent (MakeDay y (m + 1) 1).
    intros. nia.
Qed.

Lemma startOfMonth_first_instant_witness :
  startOfMonth 330 (newDate 330 2024 1 29) = newDate 330 2024 1 1 /\
  newDate 330 2024 1 1 <= newDate 330 2024 1 29 < newDate 330 2024 2 1.
Proof.
  assert (P : plainYear (getFullYear 330 (newDate 330 2024 1 29)))
    by (right; vm_compute; reflexivity).
  destruct (startOfMonth_first_instant 330 (newDate 330 2024 1 29) P)
    as (_ & _ & _ & _ & Hb).
  split; [reflexivity | exact Hb].
Defined.



(** X3. [addMonths] by any integer, negative or beyond a year, lands on
    day 1 of the month reached by carrying whole years: month index
    [(m + count) mod 12] of year [y + (m + count) / 12] (floor division;
    [y] taken as given). *)
Theorem addMonths_lands_on_first (tz : Z) (t : Date) (count : Z) :
  plainYear (getFullYear tz t) ->
  getFullYear tz (addMonths tz t count) = getFullYear tz t + (getMonth tz t + count) / 12 /\
  getMonth tz (addMonths tz t count) = (getMonth tz t + count) mod 12 /\
  getDate tz (addMonths tz t count) = 1.
Proof. apply addMonths_fields. Qed.

Lemma addMonths_lands_on_first_witness :
  getFullYear 0 (addMonths 0 (newDate 0 2024 0 15) (-1)) = 2023 /\
  getMonth 0 (addMonths 0 (newDate 0 2024 0 15) (-1)) = 11.
Proof.
  assert (P : plainYear (getFullYear 0 (newDate 0 2024 0 15)))
    by (right; vm_compute; reflexivity).
  destruct (addMonths_lands_on_first 0 (newDate 0 2024 0 15) (-1) P) as (Hy & Hm & _).
  split; [rewrite Hy | rewrite Hm]; reflexivity.
Defined.

(** X4. Month steps add up: moving by [a] and then by [b] months is moving
    by [a + b]; moving by 0 is [startOfMonth]; the "previous" button
    followed by the "next" button (or the reverse) returns to the start of
    the month one began in (all years involved taken as given). *)
Theorem addMonths_steps_compose (tz : Z) (t : Date) (a b : Z) :
  plainYear (getFullYear tz t) ->
  (plainYear (getFullYear tz (addMonths tz t a)) ->
   addMonths tz (addMonths tz t a) b = addMonths tz t (a + b)) /\
  addMonths tz t 0 = startOfMonth tz t /\
  (plainYear (getFullYear tz (addMonths tz t (-1))) ->
   addMonths tz (addMonths tz t (-1)) 1 = startOfMonth tz t) /\
  (plainYear (getFullYear tz (addMonths tz t 1)) ->
   addMonths tz (addMonths tz t 1) (-1) = startOfMonth tz t).
Proof.
  intros Hplain.
  split; [intros Ha; apply addMonths_add; assumption |].
  split; [apply addMonths_zero |].
  split; intros Hstep; rewrite addMonths_add by assumption; apply addMonths_zero.
Qed.

Lemma addMonths_steps_compose_witness :
  addMonths 330 (addMonths 330 (march2024 330) (-1)) 1 = march2024 330.
Proof.
  assert (P : plainYear (getFullYear 330 (march2024 330)))
    by (right; vm_compute; reflexivity).
  destruct (addMonths_steps_compose 330 (march2024 330) 0 0 P) as (_ & _ & Hback & _).
  rewrite Hback; [reflexivity | right; vm_compute; reflexivity].
Defined.

(* ================================================================== *)
(** * Date keys and the calendar *)
(* ================================================================== *)

(** ** Date keys sort like the days they name *)

Lemma digit_compare u v :
  Ascii.compare (digit u) (digit v) = (u mod 10 ?= v mod 10).
Proof.
  unfold digit.
  pose proof (Z.mod_pos_bound u 10 ltac:(lia)) as Hu.
  pose proof (Z.mod_pos_bound v 10 ltac:(lia)) as Hv.
  generalize dependent (u mod 10). generalize dependent (v mod 10).
  intros b Hb a Ha.
  assert (Ea : a = 0 \/ a = 1 \/ a = 2 \/ a = 3 \/ a = 4 \/ a = 5 \/ a = 6 \/
               a = 7 \/ a = 8 \/ a = 9) by lia.
  assert (Eb : b = 0 \/ b = 1 \/ b = 2 \/ b = 3 \/ b = 4 \/ b = 5 \/ b = 6 \/
               b = 7 \/ b = 8 \/ b = 9) by lia.
  clear Ha Hb.
  repeat (destruct Ea as [Ea | Ea]); subst a;
    repeat (destruct Eb as [Eb | Eb]); subst b; reflexivity.
Qed.

Lemma ymd_compare_lt y m d y' m' d' :
  0 <= y <= 9999 -> 0 <= y' <= 9999 ->
  0 <= m < 12 -> 0 <= m' < 12 ->
  1 <= d <= 31 -> 1 <= d' <= 31 ->
  lexLt y m d y' m' d' ->
  String.compare (ymd y m d) (ymd y' m' d') = Lt.
Proof.
  intros Hy Hy' Hm Hm' Hd Hd' Hlex. unfold lexLt in Hlex.
  unfold ymd, pad4, pad3, pad2. cbn [append String.compare].
  rewrite !digit_compare.
  change (Ascii.compare "-" "-") with Eq. cbv iota.
  repeat match goal with
         | |- context [?a ?= ?b] =>
             destruct (Z.compare_spec a b); cbv iota;
             try reflexivity; try (exfalso; Z.div_mod_to_equations; lia)
         end.
Qed.

Lemma monthStart_le m m' leap : 0 <= m < 12 -> 0 <= m' < 12 -> m <= m' ->
  monthStart m leap <= monthStart m' leap.
Proof.
  intros Hm Hm' Hle.
  each_month Hm; each_month Hm'; try lia; destruct leap; cbn; lia.
Qed.

Lemma monthStart_end y m : 0 <= m < 12 ->
  monthStart m (isLeap y) + daysInMonth y m <= DaysInYear y /\
  (forall m', 0 <= m' < 12 -> m < m' ->
     monthStart m (isLeap y) + daysInMonth y m <= monthStart m' (isLeap y)).
Proof.
  intros Hm. split.
  - destruct (Z.eq_dec m 11) as [-> | Hne].
    + rewrite monthStart_december. lia.
    + rewrite <- monthStart_next by lia. rewrite <- monthStart_december.
      pose proof (monthStart_le (m + 1) 11 (isLeap y) ltac:(lia) ltac:(lia) ltac:(lia)).
      pose proof (daysInMonth_pos y 11). lia.
  - intros m' Hm' Hlt. rewrite <- monthStart_next by lia.
    apply monthStart_le; lia.
Qed.

(** A later day has lexicographically later calendar fields. *)
Lemma fields_lexLt a b : a < b ->
  lexLt (YearFromDay a) (MonthFromDay a) (DateFromDay a)
        (YearFromDay b) (MonthFromDay b) (DateFromDay b).
Proof.
  intros Hab. unfold lexLt.
  pose proof (YearFromDay_le a b ltac:(lia)) as Hy.
  destruct (MakeDay_of_fields a) as [Ha Ea].
  destruct (MakeDay_of_fields b) as [Hb Eb].
  pose proof (MonthFromDay_range a) as Hma.
  pose proof (MonthFromDay_range b) as Hmb.
  destruct (Z.eq_dec (YearFromDay a) (YearFromDay b)) as [Eyr | Hne]; [| left; lia].
  right. split; [exact Eyr |].
  rewrite MakeDay_in_range in Ea, Eb by assumption.
  rewrite <- Eyr in Eb, Hb.
  set (y := YearFromDay a) in *.
  destruct (Z.lt_trichotomy (MonthFromDay a) (MonthFromDay b)) as [Hlt | [Heq | Hgt]].
  - left. exact Hlt.
  - right. split; [exact Heq |]. rewrite Heq in Ea. lia.
  - exfalso.
    destruct (monthStart_end y (MonthFromDay b) Hmb) as [_ Hnext].
    specialize (Hnext (MonthFromDay a) Hma Hgt). lia.
Qed.

Lemma dayKey_compare_lt a b :
  0 <= YearFromDay a -> YearFromDay b <= 9999 -> a < b ->
  String.compare (dayKey a) (dayKey b) = Lt.
Proof.
  intros Hlo Hhi Hab. unfold dayKey.
  pose proof (YearFromDay_le a b ltac:(lia)) as Hy.
  destruct (MakeDay_of_fields a) as [Ha _].
  destruct (MakeDay_of_fields b) as [Hb _].
  pose proof (daysInMonth_pos (YearFromDay a) (MonthFromDay a)).
  pose proof (daysInMonth_pos (YearFromDay b) (MonthFromDay b)).
  apply ymd_compare_lt; try lia.
  - apply MonthFromDay_range.
  - apply MonthFromDay_range.
  - apply fields_lexLt, Hab.
Qed.

Lemma string_compare_refl s : String.compare s s = Eq.
Proof.
  induction s as [| c s IH]; [reflexivity |]. cbn.
  unfold Ascii.compare. rewrite N.compare_refl. exact IH.
Qed.

Lemma dayKey_leb a b :
  0 <= YearFromDay a -> YearFromDay b <= 9999 -> a <= b ->
  (dayKey a <=? dayKey b)%string = true.
Proof.
  intros Hlo Hhi Hab. unfold String.leb.
  destruct (Z.eq_dec a b) as [-> | Hne].
  - rewrite string_compare_refl. reflexivity.
  - rewrite dayKey_compare_lt by lia. reflexivity.
Qed.

(** X5. The date keys [toYMD] prints sort like the days they name: for two
    instants whose UTC years lie in 0..9999, an earlier UTC day gives a
    strictly smaller key in the string order the code compares with, the
    same UTC day gives the same key, and so different days never share a
    key. *)
Theorem toYMD_order_is_day_order (t1 t2 : Date) :
  0 <= YearFromDay (Day t1) <= 9999 ->
  0 <= YearFromDay (Day t2) <= 9999 ->
  (Day t1 < Day t2 -> (toYMD t1 <? toYMD t2)%string = true) /\
  (Day t1 = Day t2 -> toYMD t1 = toYMD t2) /\
  (toYMD t1 = toYMD t2 -> Day t1 = Day t2) /\
  (Day t1 <= Day t2 -> (toYMD t1 <=? toYMD t2)%string = true).
Proof.
  intros H1 H2. rewrite !toYMD_dayKey by assumption.
  assert (Hlt : forall a b, 0 <= YearFromDay a -> YearFromDay b <= 9999 -> a < b ->
                            dayKey a <> dayKey b).
  { intros a b Ha Hb Hab E. pose proof (dayKey_compare_lt a b Ha Hb Hab) as C.
    rewrite E, string_compare_refl in C. discriminate. }
  split; [| split; [| split]].
  - intros Hd. unfold String.ltb. rewrite dayKey_compare_lt by lia. reflexivity.
  - intros ->. reflexivity.
  - intros E. destruct (Z.lt_trichotomy (Day t1) (Day t2)) as [Hc | [Hc | Hc]].
    + exfalso. apply (Hlt (Day t1) (Day t2)); [lia | lia | exact Hc | exact E].
    + exact Hc.
    + exfalso. apply (Hlt (Day t2) (Day t1)); [lia | lia | exact Hc | exact (eq_sym E)].
  - intros Hd. apply dayKey_leb; lia.
Qed.

Lemma toYMD_order_is_day_order_witness :
  (toYMD (newDate 0 2024 1 29) <? toYMD (newDate 0 2024 2 1))%string = true.
Proof.
  destruct (toYMD_order_is_day_order (newDate 0 2024 1 29) (newDate 0 2024 2 1))
    as (Hlt & _).
  - vm_compute. split; discriminate.
  - vm_compute. split; discriminate.
  - apply Hlt. vm_compute. reflexivity.
Defined.

(** ** The calendar's keys and the month's bounds *)

Lemma utcDay_newDate tz y m d :
  Day (newDate tz y m d) = MakeDay (fullYear y) m d + Day (- (tz * msPerMinute)).
Proof.
  unfold Day, newDate, msPerDay, msPerMinute.
  generalize (MakeDay (fullYear y) m d). intros n. Z.div_mod_to_equations. lia.
Qed.

Lemma grid_days tz (t : Date) :
  plainYear (getFullYear tz t) ->
  nonEmptyCells (concat (getMonthGrid tz t)) =
  map (fun d => newDate tz (getFullYear tz t) (getMonth tz t) (Z.of_nat d))
      (seq 1 (Z.to_nat (daysInMonth (getFullYear tz t) (getMonth tz t)))).
Proof.
  intros Hplain.
  pose proof (monthCells_shape tz t) as Hshape. cbv zeta in Hshape.
  rewrite (fullYear_plain _ Hplain) in Hshape.
  destruct Hshape as (k & _ & Hcells & Hmod).
  unfold getMonthGrid.
  destruct (rowsFrom_whole (monthCells tz t) Hmod) as (_ & _ & ->).
  rewrite Hcells, !nonEmptyCells_app, !nonEmptyCells_pads, app_nil_r. cbn [app].
  apply (nonEmptyCells_days
           (fun d => newDate tz (getFullYear tz t) (getMonth tz t) (Z.of_nat d))).
Qed.

Lemma endOfMonth_as_last_cell tz t :
  plainYear (getFullYear tz t) ->
  endOfMonth tz t =
  newDate tz (getFullYear tz t) (getMonth tz t)
          (daysInMonth (getFullYear tz t) (getMonth tz t)).
Proof.
  intros Hplain. unfold endOfMonth.
  apply newDate_same_day; [exact Hplain | exact Hplain |].
  apply MakeDay_month_end, getMonth_range.
Qed.

Lemma NoDup_map_lt {A : Type} (f : nat -> A) (l : list nat) :
  NoDup l -> (forall a b, In a l -> In b l -> f a = f b -> a = b) -> NoDup (map f l).
Proof.
  induction 1 as [| x l Hx Hnd IH]; intros Hinj; cbn; constructor.
  - intros Hin. apply in_map_iff in Hin. destruct Hin as (b & Hb & Hin).
    apply Hx. rewrite <- (Hinj b x); auto; [right; exact Hin | left; reflexivity].
  - apply IH. intros a b Ha Hb. apply Hinj; right; assumption.
Qed.

(** X6. In a time zone whose offset from UTC is constant (one without
    daylight-saving changes, [tz] being that offset) the day cells of the
    month grid carry date keys inside the bounds [daysPresentFor] compares
    with, and no two cells share a key: what is marked through the calendar
    of a month is what that month's count looks at (UTC years of the
    month's bounds within 0 .. 9999, local year outside 0 .. 99). *)
Theorem grid_keys_within_month_bounds (tz : Z) (t : Date) :
  plainYear (getFullYear tz t) ->
  0 <= YearFromDay (Day (startOfMonth tz t)) ->
  YearFromDay (Day (endOfMonth tz t)) <= 9999 ->
  let cells := nonEmptyCells (concat (getMonthGrid tz t)) in
  Forall (fun cell =>
            (toYMD (startOfMonth tz t) <=? toYMD cell)%string = true /\
            (toYMD cell <=? toYMD (endOfMonth tz t))%string = true) cells /\
  NoDup (map toYMD cells) /\
  hd_error (map toYMD cells) = Some (toYMD (startOfMonth tz t)) /\
  length cells = Z.to_nat (daysInMonth (getFullYear tz t) (getMonth tz t)).
Proof.
  intros Hplain Hlo Hhi cells. unfold cells. rewrite grid_days by exact Hplain.
  rewrite (endOfMonth_as_last_cell tz t Hplain) in *. unfold startOfMonth in *.
  pose proof (fullYear_plain _ Hplain) as Hfull.
  set (y := getFullYear tz t) in *. set (m := getMonth tz t) in *.
  set (n := daysInMonth y m) in *.
  pose proof (daysInMonth_pos y m) as Hn. fold n in Hn.
  rewrite utcDay_newDate, Hfull in Hlo, Hhi.
  set (s := Day (- (tz * msPerMinute))) in *.
  assert (Hday : forall d, Day (newDate tz y m d) = MakeDay y m 1 + (d - 1) + s).
  { intros d. rewrite utcDay_newDate, Hfull. fold s. unfold MakeDay. lia. }
  assert (Hn' : MakeDay y m n = MakeDay y m 1 + (n - 1)) by (unfold MakeDay; lia).
  rewrite Hn' in Hhi.
  assert (Hyr : forall k, 0 <= k <= n - 1 ->
            0 <= YearFromDay (MakeDay y m 1 + k + s) <= 9999).
  { intros k Hk. split.
    - etransitivity; [exact Hlo |]. apply YearFromDay_le. lia.
    - etransitivity; [| exact Hhi]. apply YearFromDay_le. lia. }
  assert (Hkey : forall d, 1 <= d <= n ->
            toYMD (newDate tz y m d) = dayKey (MakeDay y m 1 + (d - 1) + s)).
  { intros d Hd. rewrite toYMD_dayKey; rewrite Hday; [reflexivity |].
    apply Hyr. lia. }
  assert (Hdiff : forall a b, 0 <= a < b -> b <= n - 1 ->
            dayKey (MakeDay y m 1 + a + s) <> dayKey (MakeDay y m 1 + b + s)).
  { intros a b Ha Hb E.
    pose proof (dayKey_compare_lt (MakeDay y m 1 + a + s) (MakeDay y m 1 + b + s)) as C.
    rewrite E, string_compare_refl in C.
    assert (Hne : Eq <> Lt) by discriminate. apply Hne, C; [| | lia].
    - apply Hyr. lia.
    - apply Hyr. lia. }
  split; [| split; [| split]].
  - apply Forall_forall. intros cell Hc. apply in_map_iff in Hc.
    destruct Hc as (d & <- & Hd). apply in_seq in Hd.
    rewrite !Hkey by lia. split; apply dayKey_leb; try lia; apply Hyr; lia.
  - rewrite map_map. apply NoDup_map_lt; [apply seq_NoDup |].
    intros a b Ha Hb E. apply in_seq in Ha, Hb. rewrite !Hkey in E by lia.
    destruct (Nat.lt_trichotomy a b) as [Hc | [Hc | Hc]]; [| exact Hc |]; exfalso.
    + apply (Hdiff (Z.of_nat a - 1) (Z.of_nat b - 1)); [lia | lia | exact E].
    + apply (Hdiff (Z.of_nat b - 1) (Z.of_nat a - 1)); [lia | lia | exact (eq_sym E)].
  - replace (Z.to_nat n) with (S (Z.to_nat n - 1)) by lia. reflexivity.
  - rewrite length_map, length_seq. reflexivity.
Qed.

Lemma grid_keys_within_month_bounds_witness :
  hd_error (map toYMD (nonEmptyCells (concat (getMonthGrid 330 (march2024 330))))) =
  Some "2024-02-29" /\
  NoDup (map toYMD (nonEmptyCells (concat (getMonthGrid 330 (march2024 330))))).
Proof.
  destruct (grid_keys_within_month_bounds 330 (march2024 330))
    as (_ & Hnd & Hhd & _).
  - right. vm_compute. reflexivity.
  - vm_compute. discriminate.
  - vm_compute. discriminate.
  - split; [rewrite Hhd; reflexivity | exact Hnd].
Defined.

(* ================================================================== *)
(** * The attendance of a day *)
(* ================================================================== *)

(** ** Reading attendance back *)

Lemma find_hasId_replacePresent id id' p l :
  find (hasId id') (map (replacePresent id p) l) =
  option_map (replacePresent id p) (find (hasId id') l).
Proof.
  induction l as [| a l IH]; [reflexivity |]. cbn.
  unfold hasId at 1 3. rewrite replacePresent_keeps_id.
  destruct (AttendanceRecord.id a =? id')%string; [reflexivity | exact IH].
Qed.

Lemma find_app_none {A : Type} (f : A -> bool) l1 l2 :
  find f l1 = None -> find f (l1 ++ l2) = find f l2.
Proof.
  induction l1 as [| a l1 IH]; [reflexivity |]. cbn.
  destruct (f a); [discriminate | exact IH].
Qed.

Lemma find_app_some {A : Type} (f : A -> bool) l1 l2 x :
  find f l1 = Some x -> find f (l1 ++ l2) = Some x.
Proof.
  induction l1 as [| a l1 IH]; [discriminate |]. cbn.
  destruct (f a); [auto | exact IH].
Qed.

(** X7. A calendar checkbox shows what was last set for it: after
    [setAttendance] for a labourer and a day the lookup for that labourer
    and day returns the flag given, whether the record existed or not, and
    the lookup for any other composite id returns what it did before; with
    no record at all the box reads unchecked. *)
Theorem presentAt_after_setAttendance (L D : string) (p : bool) (d : AppData) :
  presentAt (setAttendance L D p d) L D = p /\
  (forall L' D', attendanceId L' D' <> attendanceId L D ->
     presentAt (setAttendance L D p d) L' D' = presentAt d L' D') /\
  presentAt initialData L D = false.
Proof.
  split; [| split; [| reflexivity]].
  - unfold presentAt. destruct (hasRecordId_dec (attendanceId L D) d) as [H | H].
    + rewrite (setAttendance_existing _ _ _ _ H). cbn [attendance].
      rewrite find_hasId_replacePresent.
      apply find_hasId_iff in H.
      destruct (find (hasId (attendanceId L D)) (attendance d)) as [a |] eqn:E;
        [| congruence].
      apply find_some in E. destruct E as [_ E]. unfold hasId in E.
      cbn. unfold replacePresent. rewrite E. reflexivity.
    + rewrite (setAttendance_fresh _ _ _ _ H). cbn [attendance].
      rewrite find_app_none by (apply find_hasId_none, H).
      cbn. unfold hasId. cbn. rewrite String.eqb_refl. reflexivity.
  - intros L' D' Hne. unfold presentAt.
    destruct (hasRecordId_dec (attendanceId L D) d) as [H | H].
    + rewrite (setAttendance_existing _ _ _ _ H). cbn [attendance].
      rewrite find_hasId_replacePresent.
      destruct (find (hasId (attendanceId L' D')) (attendance d)) as [a |] eqn:E;
        [| reflexivity].
      apply find_some in E. destruct E as [_ E]. unfold hasId in E.
      apply String.eqb_eq in E. cbn. unfold replacePresent.
      destruct (String.eqb_spec (AttendanceRecord.id a) (attendanceId L D)) as [E' | _];
        [congruence | reflexivity].
    + rewrite (setAttendance_fresh _ _ _ _ H). cbn [attendance].
      destruct (find (hasId (attendanceId L' D')) (attendance d)) as [a |] eqn:E.
      * rewrite (find_app_some _ _ _ _ E). reflexivity.
      * rewrite find_app_none by exact E. cbn. unfold hasId. cbn.
        destruct (String.eqb_spec (attendanceId L D) (attendanceId L' D')) as [E' | _];
          [congruence | reflexivity].
Qed.

Lemma presentAt_after_setAttendance_witness :
  presentAt (setAttendance "lab_p1_m1" "2024-03-05" false scenario)
            "lab_p1_m1" "2024-03-12" = true.
Proof.
  destruct (presentAt_after_setAttendance "lab_p1_m1" "2024-03-05" false scenario)
    as (_ & Hother & _).
  rewrite Hother; [reflexivity | discriminate].
Defined.

Lemma replacePresent_overwrite id p q a :
  replacePresent id q (replacePresent id p a) = replacePresent id q a.
Proof.
  unfold replacePresent. destruct (AttendanceRecord.id a =? id)%string eqn:E.
  - cbn. rewrite E. reflexivity.
  - rewrite E. reflexivity.
Qed.

(** X8. The last write wins: setting attendance for the same labourer and
    day twice, with any two flags, gives the document that the second call
    alone gives; in particular a box checked and unchecked again leaves a
    record marked absent, not the document without the record. *)
Theorem setAttendance_last_write_wins (L D : string) (p q : bool) (d : AppData) :
  setAttendance L D q (setAttendance L D p d) = setAttendance L D q d /\
  hasRecordId (attendanceId L D) (setAttendance L D q (setAttendance L D p d)).
Proof.
  assert (Hhas : forall p' d', hasRecordId (attendanceId L D) (setAttendance L D p' d')).
  { intros p' d'. destruct (hasRecordId_dec (attendanceId L D) d') as [H | H].
    - rewrite (setAttendance_existing _ _ _ _ H).
      destruct H as (a & Hin & Heq).
      exists (replacePresent (attendanceId L D) p' a). cbn. split.
      + apply in_map, Hin.
      + rewrite replacePresent_keeps_id. exact Heq.
    - rewrite (setAttendance_fresh _ _ _ _ H). eexists. cbn.
      split; [apply in_or_app; right; left; reflexivity | reflexivity]. }
  split; [| apply Hhas].
  rewrite (setAttendance_existing L D q _ (Hhas p d)).
  destruct (hasRecordId_dec (attendanceId L D) d) as [H | H].
  - rewrite (setAttendance_existing _ _ p _ H), (setAttendance_existing _ _ q _ H). cbn.
    rewrite map_map. f_equal. apply map_ext. intros a. apply replacePresent_overwrite.
  - rewrite (setAttendance_fresh _ _ p _ H), (setAttendance_fresh _ _ q _ H). cbn.
    rewrite map_app. f_equal. f_equal.
    + apply replacePresent_other, find_hasId_none, H.
    + cbn. unfold replacePresent. cbn. rewrite String.eqb_refl. reflexivity.
Qed.

(** ** Marking a day through the calendar *)

Lemma grid_cell_in_bounds tz t cell :
  plainYear (getFullYear tz t) ->
  0 <= YearFromDay (Day (startOfMonth tz t)) ->
  YearFromDay (Day (endOfMonth tz t)) <= 9999 ->
  In cell (nonEmptyCells (concat (getMonthGrid tz t))) ->
  (toYMD (startOfMonth tz t) <=? toYMD cell)%string = true /\
  (toYMD cell <=? toYMD (endOfMonth tz t))%string = true.
Proof.
  intros Hplain Hlo Hhi Hc. rewrite grid_days in Hc by exact Hplain.
  rewrite (endOfMonth_as_last_cell tz t Hplain) in *. unfold startOfMonth in *.
  set (y := getFullYear tz t) in *. set (m := getMonth tz t) in *.
  set (n := daysInMonth y m) in *.
  pose proof (daysInMonth_pos y m) as Hn. fold n in Hn.
  apply in_map_iff in Hc. destruct Hc as (d & <- & Hd). apply in_seq in Hd.
  assert (Hday : forall k, Day (newDate tz y m k) = Day (newDate tz y m 1) + (k - 1)).
  { intros k. rewrite !utcDay_newDate. unfold MakeDay. lia. }
  assert (Hyr : forall k, 1 <= k <= n ->
            0 <= YearFromDay (Day (newDate tz y m k)) <= 9999).
  { intros k Hk. split.
    - etransitivity; [exact Hlo |]. apply YearFromDay_le. rewrite (Hday k). lia.
    - etransitivity; [| exact Hhi]. apply YearFromDay_le.
      rewrite (Hday k), (Hday n). lia. }
  rewrite !toYMD_dayKey by (apply Hyr; lia).
  split; apply dayKey_leb; try (apply Hyr; lia).
  - rewrite (Hday (Z.of_nat d)). lia.
  - rewrite (Hday (Z.of_nat d)), (Hday n). lia.
Qed.

(** X9. Marking through the calendar is counted in that month, in every
    time zone: for a day cell of the month's grid and a labourer with no
    record yet under that cell's key, setting the attendance raises the
    labourer's days present for the month by one when the flag is "present"
    and leaves them unchanged when it is "absent"; other labourers' counts
    do not move. *)
Theorem calendar_mark_is_counted (tz : Z) (t cell : Date) (L : string) (p : bool)
    (d : AppData) :
  plainYear (getFullYear tz t) ->
  0 <= YearFromDay (Day (startOfMonth tz t)) ->
  YearFromDay (Day (endOfMonth tz t)) <= 9999 ->
  In cell (nonEmptyCells (concat (getMonthGrid tz t))) ->
  ~ hasRecordId (attendanceId L (toYMD cell)) d ->
  daysPresentFor tz (setAttendance L (toYMD cell) p d) L t =
    daysPresentFor tz d L t + (if p then 1 else 0) /\
  (forall L', L' <> L ->
     daysPresentFor tz (setAttendance L (toYMD cell) p d) L' t = daysPresentFor tz d L' t).
Proof.
  intros Hplain Hlo Hhi Hc Hfresh.
  destruct (grid_cell_in_bounds tz t cell Hplain Hlo Hhi Hc) as [H1 H2].
  rewrite (setAttendance_fresh _ _ _ _ Hfresh). unfold daysPresentFor.
  cbn [attendance]. split.
  - rewrite filter_app, length_app. cbn [filter].
    unfold inMonthRange at 2. cbn [AttendanceRecord.labourId AttendanceRecord.date
                                    AttendanceRecord.present].
    rewrite String.eqb_refl, H1, H2. destruct p; cbn; lia.
  - intros L' Hne. rewrite filter_app, length_app. cbn [filter].
    unfold inMonthRange at 2. cbn [AttendanceRecord.labourId].
    destruct (String.eqb_spec L L') as [E | _]; [exfalso; exact (Hne (eq_sym E)) |].
    cbn [andb app length]. lia.
Qed.

Lemma calendar_mark_is_counted_witness :
  daysPresentFor 330 (setAttendance "lab_p1_m1" (toYMD (newDate 330 2024 2 31)) true
                                    initialData)
                 "lab_p1_m1" (march2024 330) =
  daysPresentFor 330 initialData "lab_p1_m1" (march2024 330) + 1.
Proof.
  assert (H0 : plainYear (getFullYear 330 (march2024 330)))
    by (right; vm_compute; reflexivity).
  assert (H1 : 0 <= YearFromDay (Day (startOfMonth 330 (march2024 330))))
    by (vm_compute; discriminate).
  assert (H2 : YearFromDay (Day (endOfMonth 330 (march2024 330))) <= 9999)
    by (vm_compute; discriminate).
  assert (H3 : In (newDate 330 2024 2 31)
                  (nonEmptyCells (concat (getMonthGrid 330 (march2024 330))))).
  { rewrite grid_days by exact H0. vm_compute. do 30 right. left. reflexivity. }
  assert (H4 : ~ hasRecordId (attendanceId "lab_p1_m1" (toYMD (newDate 330 2024 2 31)))
                             initialData)
    by (intros (a & [] & _)).
  exact (proj1 (calendar_mark_is_counted 330 (march2024 330) (newDate 330 2024 2 31)
                  "lab_p1_m1" true initialData H0 H1 H2 H3 H4)).
Defined.

(* ================================================================== *)
(** * Removals *)
(* ================================================================== *)

(** ** Removing labourers and contractors *)

Lemma filter_filter_same {A : Type} (f : A -> bool) l :
  filter f (filter f l) = filter f l.
Proof.
  apply filter_all_true. intros x Hx. apply filter_In in Hx. tauto.
Qed.

Lemma filter_comm {A : Type} (f g : A -> bool) l :
  filter f (filter g l) = filter g (filter f l).
Proof.
  induction l as [| a l IH]; [reflexivity |]. cbn.
  destruct (f a) eqn:Ef, (g a) eqn:Eg; cbn; rewrite ?Ef, ?Eg, IH; reflexivity.
Qed.

Lemma filter_comm_on {A : Type} (f f' g : A -> bool) l :
  (forall a, g a = true -> f' a = f a) ->
  filter f' (filter g l) = filter g (filter f l).
Proof.
  intros H. induction l as [| a l IH]; [reflexivity |]. cbn.
  destruct (g a) eqn:Eg; cbn.
  - rewrite (H a Eg). destruct (f a); cbn; rewrite ?Eg, IH; reflexivity.
  - destruct (f a); cbn; rewrite ?Eg; exact IH.
Qed.

(** X10. [removeLabour L] removes exactly the labourers with id [L] and the
    attendance records with labourId [L]: none of either is left, every
    other labourer and record is kept in its place, contractors are
    untouched, and a document that mentions [L] nowhere is returned
    unchanged. *)
Theorem removeLabour_cascade (L : string) (d : AppData) :
  let d' := removeLabour L d in
  contractors d' = contractors d /\
  (forall l, In l (labours d') <-> In l (labours d) /\ Labour.id l <> L) /\
  (forall a, In a (attendance d') <->
             In a (attendance d) /\ AttendanceRecord.labourId a <> L) /\
  (exists keepL keepA,
      labours d' = filter keepL (labours d) /\
      attendance d' = filter keepA (attendance d)) /\
  ((forall l, In l (labours d) -> Labour.id l <> L) ->
   (forall a, In a (attendance d) -> AttendanceRecord.labourId a <> L) ->
   d' = d).
Proof.
  intros d'. unfold d', removeLabour. cbn [contractors labours attendance].
  split; [reflexivity |]. split; [| split; [| split]].
  - intros l. rewrite filter_In, negb_true_iff, String.eqb_neq. reflexivity.
  - intros a. rewrite filter_In, negb_true_iff, String.eqb_neq. reflexivity.
  - eexists. eexists. split; reflexivity.
  - intros Hl Ha. rewrite !filter_all_true.
    + apply AppData_eta.
    + intros a Hin. apply negb_true_iff, String.eqb_neq, Ha, Hin.
    + intros l Hin. apply negb_true_iff, String.eqb_neq, Hl, Hin.
Qed.

Lemma removeLabour_cascade_witness :
  removeLabour "lab_p1_m1" scenario =
    mkAppData [Contractor.mk "ctr_p0_m0" "Ravi Plumbing" None] [] [] /\
  removeLabour "lab_zz_m9" scenario = scenario.
Proof.
  split; [reflexivity |].
  apply (removeLabour_cascade "lab_zz_m9" scenario).
  - vm_compute. intuition (subst; discriminate).
  - vm_compute. intuition (subst; discriminate).
Defined.

Lemma ownerIsNot_after_removeContractor C ls a :
  ownerIsNot C ls a = true ->
  ownerIsNot C (filter (fun l => negb (Labour.contractorId l =? C)%string) ls) a = true.
Proof.
  intros _. unfold ownerIsNot.
  destruct (find _ (filter _ ls)) as [l |] eqn:E; [| reflexivity].
  apply find_some in E. destruct E as [Hin _].
  apply filter_In in Hin. tauto.
Qed.

(** X11. Both removals are idempotent: removing the same contractor, or
    the same labourer, a second time changes nothing. *)
Theorem removals_idempotent (id : string) (d : AppData) :
  removeContractor id (removeContractor id d) = removeContractor id d /\
  removeLabour id (removeLabour id d) = removeLabour id d.
Proof.
  split.
  - unfold removeContractor. cbn [contractors labours attendance].
    rewrite !filter_filter_same. f_equal.
    apply filter_all_true. intros a Ha. apply filter_In in Ha.
    apply ownerIsNot_after_removeContractor. tauto.
  - unfold removeLabour. cbn [contractors labours attendance].
    rewrite !filter_filter_same. reflexivity.
Qed.

Lemma find_filter_other ls L a :
  AttendanceRecord.labourId a <> L ->
  find (fun l => Labour.id l =? AttendanceRecord.labourId a)%string
       (filter (fun l => negb (Labour.id l =? L)%string) ls) =
  find (fun l => Labour.id l =? AttendanceRecord.labourId a)%string ls.
Proof.
  intros Hne. induction ls as [| l ls IH]; [reflexivity |]. cbn.
  destruct (String.eqb_spec (Labour.id l) L) as [E | E]; cbn.
  - destruct (String.eqb_spec (Labour.id l) (AttendanceRecord.labourId a)) as [E' | _];
      [congruence | exact IH].
  - destruct (Labour.id l =? AttendanceRecord.labourId a)%string; [reflexivity | exact IH].
Qed.

(** X12. Removing a labourer and removing a contractor commute: the two
    orders give the same document. *)
Theorem removals_commute (C L : string) (d : AppData) :
  removeContractor C (removeLabour L d) = removeLabour L (removeContractor C d).
Proof.
  unfold removeContractor, removeLabour. cbn [contractors labours attendance].
  f_equal.
  - apply filter_comm.
  - apply filter_comm_on. intros a Ha.
    apply negb_true_iff, String.eqb_neq in Ha.
    unfold ownerIsNot. rewrite find_filter_other by exact Ha. reflexivity.
Qed.

(** X13. The delete cascades keep references valid.  If every labourer's
    contractor exists, it still does after removing any contractor or any
    labourer; if every attendance record's labourer exists, it still does
    after either removal; no uniqueness of ids is needed. *)
Theorem removals_keep_references (id : string) (d : AppData) :
  (labourRefsValid d ->
     labourRefsValid (removeContractor id d) /\ labourRefsValid (removeLabour id d)) /\
  (attendanceRefsValid d ->
     attendanceRefsValid (removeContractor id d) /\
     attendanceRefsValid (removeLabour id d)).
Proof.
  unfold labourRefsValid, attendanceRefsValid. split; intros H; split.
  - cbn. intros l Hl. apply filter_In in Hl. destruct Hl as [Hl Hc].
    apply negb_true_iff, String.eqb_neq in Hc.
    specialize (H l Hl). apply in_map_iff in H. destruct H as (c & Hid & Hin).
    apply in_map_iff. exists c. split; [exact Hid |].
    apply filter_In. split; [exact Hin |].
    apply negb_true_iff, String.eqb_neq. congruence.
  - cbn. intros l Hl. apply filter_In in Hl. apply H. tauto.
  - cbn. intros a Ha. apply filter_In in Ha. destruct Ha as [Ha Hown].
    unfold ownerIsNot in Hown.
    destruct (find _ (labours d)) as [l |] eqn:E.
    + apply find_some in E. destruct E as [Hin Hid]. apply String.eqb_eq in Hid.
      apply in_map_iff. exists l. split; [exact Hid |].
      apply filter_In. split; [exact Hin | exact Hown].
    + exfalso. specialize (H a Ha). apply in_map_iff in H.
      destruct H as (l & Hid & Hin).
      pose proof (find_none _ _ E l Hin) as Hf. cbn in Hf.
      rewrite Hid, String.eqb_refl in Hf. discriminate.
  - cbn. intros a Ha. apply filter_In in Ha. destruct Ha as [Ha Hne].
    apply negb_true_iff, String.eqb_neq in Hne.
    specialize (H a Ha). apply in_map_iff in H. destruct H as (l & Hid & Hin).
    apply in_map_iff. exists l. split; [exact Hid |].
    apply filter_In. split; [exact Hin |].
    apply negb_true_iff, String.eqb_neq. congruence.
Qed.

Lemma removals_keep_references_witness :
  labourRefsValid (removeLabour "lab_p1_m1" scenario) /\
  attendanceRefsValid (removeLabour "lab_p1_m1" scenario).
Proof.
  destruct (removals_keep_references "lab_p1_m1" scenario) as [HL HA].
  split.
  - apply HL. intros l Hl. vm_compute in Hl. destruct Hl as [<- | []].
    vm_compute. left. reflexivity.
  - apply HA. intros a Ha. vm_compute in Ha. destruct Ha as [<- | [<- | []]];
      vm_compute; left; reflexivity.
Defined.

(* ================================================================== *)
(** * The forms *)
(* ================================================================== *)

(** ** What the "Add" handlers let through *)

Lemma trimEnd_idempotent s : trimEnd (trimEnd s) = trimEnd s.
Proof.
  induction s as [| c r IH]; [reflexivity |]. cbn.
  destruct (trimEnd r) as [| c' k] eqn:E.
  - destruct (isWhiteSpace c) eqn:W; [reflexivity |]. cbn. rewrite W. reflexivity.
  - cbn [trimEnd]. cbn [trimEnd] in IH. rewrite IH. reflexivity.
Qed.

Lemma trimStart_clean s : startsClean (trimStart s).
Proof.
  induction s as [| c r IH]; [exact I |]. cbn.
  destruct (isWhiteSpace c) eqn:W; [exact IH | exact W].
Qed.

Lemma trimEnd_clean s : startsClean s -> startsClean (trimEnd s).
Proof.
  destruct s as [| c r]; [intros _; exact I |]. cbn. intros W.
  destruct (trimEnd r); [rewrite W |]; exact W.
Qed.

Lemma trimStart_of_clean s : startsClean s -> trimStart s = s.
Proof. destruct s as [| c r]; [reflexivity |]. cbn. intros ->. reflexivity. Qed.

Lemma trim_idempotent s : trim (trim s) = trim s.
Proof.
  unfold trim.
  rewrite (trimStart_of_clean (trimEnd (trimStart s)))
    by apply trimEnd_clean, trimStart_clean.
  apply trimEnd_idempotent.
Qed.

(** X14. The "Add labour" handler: an empty contractor selection, a name
    that is empty after trimming, or a rate that is not finite or not above
    zero leaves the document as it is; otherwise exactly one labourer is
    appended, under the selected contractor id whether or not a contractor
    with that id exists, with the trimmed name and the rate rounded to the
    nearest integer (ties upwards), which is never negative, is positive
    from one half on and is 0 below one half. *)
Theorem onAddLabour_validates (labCtr labName : string) (rate : number)
    (rnd now : string) (d : AppData) :
  let d' := onAddLabour labCtr labName rate rnd now d in
  (labCtr = "" \/ trim labName = "" \/ Number_isFinite rate = false \/ leZero rate = true ->
   d' = d) /\
  (forall q, rate = Finite q -> labCtr <> "" -> trim labName <> "" -> (0 < q)%Q ->
     d' = mkAppData (contractors d)
            (labours d ++ [Labour.mk (newId "lab" rnd now) labCtr (trim labName)
                                     (Math_round q)])
            (attendance d) /\
     0 <= Math_round q /\
     (inject_Z (Math_round q) - (1 # 2) <= q)%Q /\
     (q < inject_Z (Math_round q) + (1 # 2))%Q /\
     ((1 # 2 <= q)%Q -> 0 < Math_round q) /\
     ((q < 1 # 2)%Q -> Math_round q = 0)) /\
  contractors d' = contractors d /\
  attendance d' = attendance d.
Proof.
  intros d'. split; [apply onAddLabour_rejects |]. split.
  - intros q -> H1 H2 H3. unfold d'. rewrite onAddLabour_accepts by assumption.
    destruct (Math_round_nearest q) as [Hlo Hhi].
    split; [reflexivity |]. split; [| split; [exact Hlo | split; [exact Hhi | split]]].
    + destruct (Qlt_le_dec q (1 # 2)) as [Hs | Hs].
      * rewrite Math_round_small by assumption. lia.
      * apply Z.lt_le_incl, Math_round_positive, Hs.
    + apply Math_round_positive.
    + intros Hs. apply Math_round_small; assumption.
  - unfold d', onAddLabour.
    destruct ((labCtr =? "")%string || (trim labName =? "")%string
              || negb (Number_isFinite rate) || leZero rate)%bool;
      [split; reflexivity |].
    destruct rate; split; reflexivity.
Qed.

Lemma onAddLabour_validates_witness :
  onAddLabour "ctr_p0_m0" "  " (Finite (800 # 1)) "p1" "m1" initialData = initialData /\
  labours (onAddLabour "ctr_gone" " Suresh " (Finite (1601 # 2)) "p1" "m1" initialData) =
    [Labour.mk "lab_p1_m1" "ctr_gone" "Suresh" 801].
Proof.
  split.
  - apply (onAddLabour_validates "ctr_p0_m0" "  " (Finite (800 # 1)) "p1" "m1" initialData).
    right. left. reflexivity.
  - reflexivity.
Defined.

(** X15. Different draws give different identifiers, and a contractor's
    identifier is never a labourer's: when the random parts contain no
    underscore (they are base-36 numerals) [newId] with one prefix is
    injective in the pair of draws, and identifiers with the prefixes
    ["ctr"] and ["lab"] differ whatever the draws. *)
Theorem newId_separates (rnd now rnd' now' : string) :
  (forall prefix, noSeparator rnd = true -> noSeparator rnd' = true ->
     newId prefix rnd now = newId prefix rnd' now' -> rnd = rnd' /\ now = now') /\
  newId "ctr" rnd now <> newId "lab" rnd' now'.
Proof.
  split.
  - intros prefix. apply newId_injective.
  - unfold newId. cbn. discriminate.
Qed.

Lemma newId_separates_witness :
  newId "ctr" "k3x" "m0" <> newId "ctr" "k3y" "m0".
Proof.
  intros E.
  destruct (proj1 (newId_separates "k3x" "m0" "k3y" "m0") "ctr" eq_refl eq_refl E)
    as [H _].
  discriminate H.
Defined.

Lemma Forall_filter_keep {A : Type} (P : A -> Prop) (f : A -> bool) l :
  Forall P l -> Forall P (filter f l).
Proof. intros H. apply incl_Forall with (2 := H), incl_filter. Qed.

(** X16. Every document built from the empty one by the handlers and the
    removals holds only entries as the forms let them in: contractor and
    labourer names are non-empty and already trimmed, a note is absent
    rather than empty, a labourer's contractor id is non-empty and the daily
    rate is an integer that is not negative, and identifiers are [newId]
    values with the prefix of their kind. *)
Theorem reachable_entries_entered (d : AppData) :
  reachable d ->
  Forall contractorEntered (contractors d) /\ Forall labourEntered (labours d).
Proof.
  induction 1 as [| n o r t d _ [IHc IHl] | id d _ [IHc IHl]
                  | c n rate r t d _ [IHc IHl] | id d _ [IHc IHl]
                  | l y p d _ [IHc IHl]].
  - split; constructor.
  - destruct (String.eqb_spec (trim n) "") as [E | E].
    + rewrite onAddContractor_rejects by exact E. split; assumption.
    + rewrite onAddContractor_accepts by exact E. cbn. split; [| exact IHl].
      apply Forall_app. split; [exact IHc |]. constructor; [| constructor].
      unfold contractorEntered. cbn.
      split; [exact E |]. split; [apply trim_idempotent |]. split.
      * destruct (String.eqb_spec (trim o) "") as [Eo | Eo]; [discriminate |].
        intros [= Ho]. exact (Eo Ho).
      * exists r, t. reflexivity.
  - cbn. split; apply Forall_filter_keep; assumption.
  - destruct rate as [| | | q];
      try (rewrite onAddLabour_rejects by (right; right; left; reflexivity);
           split; assumption).
    destruct (String.eqb_spec c "") as [Ec | Ec];
      [rewrite onAddLabour_rejects by (left; exact Ec); split; assumption |].
    destruct (String.eqb_spec (trim n) "") as [En | En];
      [rewrite onAddLabour_rejects by (right; left; exact En); split; assumption |].
    destruct (Qlt_le_dec 0 q) as [Hq | Hq].
    + rewrite onAddLabour_accepts by assumption.
      unfold upsertLabour. cbn [contractors labours]. split; [exact IHc |].
      apply Forall_app. split; [exact IHl |]. constructor; [| constructor].
      unfold labourEntered.
      cbn [Labour.name Labour.contractorId Labour.dailyRate Labour.id].
      split; [exact En |]. split; [apply trim_idempotent |]. split; [exact Ec |].
      split; [| exists r, t; reflexivity].
      destruct (Qlt_le_dec q (1 # 2)) as [Hs | Hs].
      * rewrite Math_round_small by assumption. lia.
      * apply Z.lt_le_incl, Math_round_positive, Hs.
    + rewrite onAddLabour_rejects; [split; assumption |].
      right; right; right. cbn. apply Qle_bool_iff, Hq.
  - cbn. split; [exact IHc | apply Forall_filter_keep; exact IHl].
  - split; assumption.
Qed.

Lemma reachable_entries_entered_witness :
  Forall contractorEntered (contractors scenario) /\
  Forall labourEntered (labours scenario).
Proof.
  apply reachable_entries_entered. unfold scenario. repeat constructor.
Defined.

(* ================================================================== *)
(** * Buckets *)
(* ================================================================== *)

(** ** The bucket of each contractor *)

Lemma bucketFor_sums tz data month c :
  inherited c = false -> exactSums tz data month (labours data) ->
  bucketFor (totals tz data month) c =
  RowBucket (bucketOf tz data month (laboursOf c data)).
Proof.
  intros Hc Hex. unfold bucketFor. rewrite lookup_byContractor by assumption.
  rewrite Hc. destruct (laboursOf c data); reflexivity.
Qed.

Lemma bucketFor_inherited tz data month c :
  inherited c = true -> bucketFor (totals tz data month) c = RowInherited.
Proof.
  intros Hc. unfold bucketFor.
  rewrite lookup_byContractor_inherited by exact Hc. rewrite Hc. reflexivity.
Qed.

(** X17. The row of a contractor shows exactly that contractor's labourers.
    When the month's sums do not round and the contractor id does not spell
    a property of [Object.prototype], the bucket holds their number, the
    sum of their days present and the sum of days times daily rate, and a
    contractor without labourers has no bucket and the row shows zeros.
    An id that spells such a property has no bucket and its row reads the
    inherited object.  Each contractor id has at most one bucket; and under
    the contractor filter (any selection other than ["all"]) the labourers
    listed are the ones the bucket counts. *)
Theorem bucket_of_contractor (tz : Z) (data : AppData) (month : Date) (c : string) :
  exactTotals tz data month ->
  let t := totals tz data month in
  (inherited c = false ->
   bucketFor t c = RowBucket (bucketOf tz data month (laboursOf c data)) /\
   (lookup c (byContractor t) = None <-> laboursOf c data = []) /\
   (c <> "all" ->
    exists b, bucketFor t c = RowBucket b /\
              labourCount b = Int (Z.of_nat (length (visibleLabours c data))))) /\
  (inherited c = true ->
   lookup c (byContractor t) = None /\ bucketFor t c = RowInherited) /\
  NoDup (map fst (byContractor t)) /\
  (c <> "all" -> visibleLabours c data = laboursOf c data) /\
  visibleLabours "all" data = labours data.
Proof.
  intros [_ Hex] t.
  assert (E : c <> "all" -> visibleLabours c data = laboursOf c data).
  { intros Hall. unfold visibleLabours, laboursOf.
    destruct (String.eqb_spec c "all"); [contradiction | reflexivity]. }
  split; [| split; [| split; [| split]]].
  - intros Hc. split; [apply bucketFor_sums; assumption |].
    split; [apply lookup_byContractor_some, Hc |].
    intros Hall. eexists. split; [apply bucketFor_sums; assumption |].
    rewrite (E Hall). reflexivity.
  - intros Hc. split; [apply lookup_byContractor_inherited, Hc |].
    apply bucketFor_inherited, Hc.
  - apply byContractor_NoDup.
  - exact E.
  - unfold visibleLabours. cbn. apply filter_all_true. reflexivity.
Qed.

Lemma bucket_of_contractor_witness :
  bucketFor (totals 0 scenario (march2024 0)) "ctr_p0_m0" =
    RowBucket (mkBucket (Int 2) (Int 1600) (Int 1)) /\
  bucketFor (totals 0 scenario (march2024 0)) "valueOf" = RowInherited.
Proof.
  assert (E : exactTotals 0 scenario (march2024 0)).
  { split; [repeat constructor |]. vm_compute. repeat split; discriminate. }
  split.
  - destruct (bucket_of_contractor 0 scenario (march2024 0) "ctr_p0_m0" E)
      as (H & _).
    destruct (H eq_refl) as (-> & _). reflexivity.
  - destruct (bucket_of_contractor 0 scenario (march2024 0) "valueOf" E)
      as (_ & H & _).
    exact (proj2 (H eq_refl)).
Defined.

(** ** Totals after a contractor is removed *)

Lemma filter_absorb {A : Type} (f g : A -> bool) l :
  (forall a, In a l -> f a = true -> g a = true) ->
  filter f (filter g l) = filter f l.
Proof.
  induction l as [| a l IH]; intros H; [reflexivity |]. cbn.
  destruct (g a) eqn:Eg; cbn.
  - destruct (f a); [f_equal |]; apply IH; intros x Hx; apply H; right; exact Hx.
  - destruct (f a) eqn:Ef.
    + rewrite (H a (or_introl eq_refl) Ef) in Eg. discriminate.
    + apply IH. intros x Hx. apply H. right. exact Hx.
Qed.

Lemma filter_split_Permutation {A : Type} (p : A -> bool) l :
  Permutation (filter (fun a => negb (p a)) l ++ filter p l) l.
Proof.
  induction l as [| a l IH]; [constructor |]. cbn [filter].
  destruct (p a); cbn [negb app].
  - symmetry. apply Permutation_cons_app. symmetry. exact IH.
  - constructor. exact IH.
Qed.

Lemma fold_left_ext_in {A B : Type} (f g : A -> B -> A) l :
  (forall a b, In b l -> f a b = g a b) -> forall a, fold_left f l a = fold_left g l a.
Proof.
  induction l as [| b l IH]; intros H a; [reflexivity |].
  cbn. rewrite H by (left; reflexivity). apply IH.
  intros a' b' Hb'. apply H. right. exact Hb'.
Qed.

Lemma labourDays_after_removeContractor tz C d month l :
  labourIdsDistinct d -> In l (labours d) -> Labour.contractorId l <> C ->
  labourDays tz (removeContractor C d) month l = labourDays tz d month l.
Proof.
  intros Hnd Hin Hc. unfold labourDays, daysPresentFor, removeContractor.
  cbn [attendance]. do 2 f_equal. apply filter_absorb. intros a _ Ha.
  unfold inMonthRange in Ha. rewrite !andb_true_iff in Ha.
  destruct Ha as (((Hid & _) & _) & _). apply String.eqb_eq in Hid.
  unfold ownerIsNot. rewrite Hid, (find_unique_id _ _ Hnd Hin).
  apply negb_true_iff, String.eqb_neq, Hc.
Qed.

Lemma bucketOf_ext tz d d' month ls :
  (forall l, In l ls -> labourDays tz d' month l = labourDays tz d month l) ->
  bucketOf tz d' month ls = bucketOf tz d month ls.
Proof.
  intros H. unfold bucketOf, labourAmount. f_equal.
  - do 2 f_equal. apply map_ext_in, H.
  - do 2 f_equal. apply map_ext_in. intros l Hl. rewrite (H l Hl). reflexivity.
Qed.

Lemma exactSums_ext tz d d' month ls :
  (forall l, In l ls -> labourDays tz d' month l = labourDays tz d month l) ->
  exactSums tz d month ls -> exactSums tz d' month ls.
Proof.
  intros H. unfold exactSums, labourAmount.
  rewrite (map_ext_in (labourDays tz d' month) (labourDays tz d month) ls H).
  rewrite (map_ext_in (fun l => Z.abs (labourDays tz d' month l * Labour.dailyRate l))
                      (fun l => Z.abs (labourDays tz d month l * Labour.dailyRate l)) ls);
    [tauto |].
  intros l Hl. rewrite (H l Hl). reflexivity.
Qed.

Lemma bumpBucket_ext tz d d' month l b :
  labourDays tz d' month l = labourDays tz d month l ->
  bumpBucket tz d' month b l = bumpBucket tz d month b l.
Proof. intros H. unfold bumpBucket, labourAmount. rewrite H. reflexivity. Qed.

(** X18. Removing a contractor takes exactly that contractor's bucket out of
    the totals: afterwards the removed contractor has no bucket, and its
    row reads zeros unless its id spells a property of [Object.prototype];
    when labourer ids are pairwise distinct every other contractor's row is
    what it was; and when moreover the old sums do not round and the id
    spells no such property, the old grand total is the new one plus the
    removed bucket, each of the three figures dropping by the removed
    bucket's. *)
Theorem totals_after_removeContractor (tz : Z) (C : string) (d : AppData)
    (month : Date) :
  let t := totals tz d month in
  let t' := totals tz (removeContractor C d) month in
  lookup C (byContractor t') = None /\
  (inherited C = false -> bucketFor t' C = RowBucket zeroBucket) /\
  (labourIdsDistinct d ->
   (forall c, c <> C -> bucketFor t' c = bucketFor t c) /\
   (exactTotals tz d month -> inherited C = false ->
    exists b,
      bucketFor t C = RowBucket b /\
      wholeBucket b /\ wholeBucket (grand t) /\ wholeBucket (grand t') /\
      grand t = addBucket (grand t') b /\
      intOf (days (grand t')) = intOf (days (grand t)) - intOf (days b) /\
      intOf (amount (grand t')) = intOf (amount (grand t)) - intOf (amount b) /\
      intOf (labourCount (grand t')) =
        intOf (labourCount (grand t)) - intOf (labourCount b))).
Proof.
  intros t t'.
  assert (Hgone : laboursOf C (removeContractor C d) = []).
  { unfold laboursOf, removeContractor. cbn [labours].
    induction (labours d) as [| l ls IH]; [reflexivity |]. cbn.
    destruct (String.eqb_spec (Labour.contractorId l) C) as [E | E]; cbn; [exact IH |].
    destruct (String.eqb_spec (Labour.contractorId l) C); [contradiction | exact IH]. }
  assert (Hnone : lookup C (byContractor t') = None).
  { destruct (inherited C) eqn:HC.
    - apply lookup_byContractor_inherited, HC.
    - apply lookup_byContractor_some; assumption. }
  split; [exact Hnone |]. split.
  - intros HC. unfold bucketFor. fold t'. rewrite Hnone, HC. reflexivity.
  - intros Hnd.
    assert (Hkept : forall l, In l (labours (removeContractor C d)) ->
              labourDays tz (removeContractor C d) month l = labourDays tz d month l).
    { intros l Hl. cbn in Hl. apply filter_In in Hl. destruct Hl as [Hin Hc].
      apply negb_true_iff, String.eqb_neq in Hc.
      apply labourDays_after_removeContractor; assumption. }
    split.
    + intros c Hc. unfold bucketFor, t, t', totals. cbn [byContractor].
      destruct (inherited c) eqn:Hi.
      * rewrite !lookup_fold_accumulate_inherited by (reflexivity || exact Hi).
        reflexivity.
      * rewrite !lookup_fold_accumulate by exact Hi.
        assert (E : filter (fun l => (Labour.contractorId l =? c)%string)
                           (labours (removeContractor C d)) =
                    filter (fun l => (Labour.contractorId l =? c)%string) (labours d)).
        { unfold removeContractor. cbn [labours]. apply filter_absorb.
          intros l _ Hl. apply String.eqb_eq in Hl.
          apply negb_true_iff, String.eqb_neq. congruence. }
        assert (Hsub : forall l,
                  In l (filter (fun l => (Labour.contractorId l =? c)%string) (labours d)) ->
                  In l (labours (removeContractor C d))).
        { intros l Hl. rewrite <- E in Hl. apply filter_In in Hl. tauto. }
        rewrite E.
        destruct (filter _ (labours d)) as [| l mine] eqn:Em; [reflexivity |].
        f_equal. apply fold_left_ext_in.
        intros b l' Hl'. apply bumpBucket_ext, Hkept, Hsub, Hl'.
    + intros [_ Hex] HC.
      set (notC := fun l => negb (Labour.contractorId l =? C)%string).
      set (isC := fun l => (Labour.contractorId l =? C)%string).
      assert (Hex' : exactSums tz (removeContractor C d) month
                               (labours (removeContractor C d))).
      { apply (exactSums_ext tz d); [exact Hkept |].
        unfold removeContractor. cbn [labours]. apply exactSums_filter, Hex. }
      assert (Hrest : countedLabours (removeContractor C d) =
                      filter notC (countedLabours d)).
      { unfold countedLabours, removeContractor. cbn [labours]. apply filter_comm. }
      assert (Hmine : laboursOf C d = filter isC (countedLabours d)).
      { unfold laboursOf, countedLabours. symmetry. apply filter_absorb.
        intros l _ Hl. apply String.eqb_eq in Hl. rewrite Hl, HC. reflexivity. }
      assert (P : Permutation (filter notC (countedLabours d) ++ laboursOf C d)
                              (countedLabours d)).
      { rewrite Hmine. apply (filter_split_Permutation isC). }
      assert (G : grand t = bucketOf tz d month (countedLabours d))
        by (apply grand_counted, Hex).
      assert (G' : grand t' = bucketOf tz d month (filter notC (countedLabours d))).
      { unfold t'. rewrite (grand_counted _ _ _ Hex'), Hrest.
        apply bucketOf_ext. intros l Hl. apply Hkept.
        apply filter_In in Hl. destruct Hl as [Hl Hn].
        apply filter_In in Hl. destruct Hl as [Hl _].
        cbn. apply filter_In. split; assumption. }
      exists (bucketOf tz d month (laboursOf C d)).
      split; [apply bucketFor_sums; assumption |].
      rewrite G, G'.
      split; [unfold wholeBucket, bucketOf; eauto |].
      split; [unfold wholeBucket, bucketOf; eauto |].
      split; [unfold wholeBucket, bucketOf; eauto |].
      split.
      * rewrite addBucket_exact.
        -- symmetry. apply bucketOf_Permutation, P.
        -- apply (exactSums_Permutation tz d month (countedLabours d));
             [symmetry; exact P | apply exactSums_filter, Hex].
      * unfold bucketOf. cbn [days amount labourCount intOf].
        rewrite <- (sumZ_Permutation _ _ (Permutation_map (labourDays tz d month) P)).
        rewrite <- (sumZ_Permutation _ _ (Permutation_map (labourAmount tz d month) P)).
        rewrite <- (Permutation_length P).
        rewrite length_app, !map_app, !sumZ_app. repeat split; lia.
Qed.

Lemma totals_after_removeContractor_witness :
  let two := onAddLabour "ctr_q0_m2" "Mahesh" (Finite (700 # 1)) "q1" "m3"
               (onAddContractor "Acme Pipes" "" "q0" "m2" scenario) in
  bucketFor (totals 0 (removeContractor "ctr_q0_m2" two) (march2024 0)) "ctr_p0_m0" =
  bucketFor (totals 0 two (march2024 0)) "ctr_p0_m0".
Proof.
  intros two.
  apply (totals_after_removeContractor 0 "ctr_q0_m2" two (march2024 0)).
  - unfold labourIdsDistinct. vm_compute.
    constructor; [| constructor; [| constructor]]; cbn; intuition discriminate.
  - discriminate.
Defined.

(** ** Views of one month *)

Lemma fold_left_ext {A B : Type} (f g : A -> B -> A) l :
  (forall a b, f a b = g a b) -> forall a, fold_left f l a = fold_left g l a.
Proof.
  intros H. induction l as [| b l IH]; intros a; [reflexivity |].
  cbn. rewrite H. apply IH.
Qed.

(** X19. The grid, a labourer's days present and the totals depend on the
    displayed date only through its local year and month; so stepping to
    the previous month and back (or forward and back) shows the same grid
    and the same totals again (all years involved taken as given). *)
Theorem views_depend_on_month (tz : Z) (t t' : Date) (d : AppData) :
  plainYear (getFullYear tz t) ->
  getFullYear tz t = getFullYear tz t' -> getMonth tz t = getMonth tz t' ->
  getMonthGrid tz t = getMonthGrid tz t' /\
  (forall L, daysPresentFor tz d L t = daysPresentFor tz d L t') /\
  totals tz d t = totals tz d t' /\
  (plainYear (getFullYear tz (addMonths tz t (-1))) ->
   getMonthGrid tz (addMonths tz (addMonths tz t (-1)) 1) = getMonthGrid tz t /\
   totals tz d (addMonths tz (addMonths tz t (-1)) 1) = totals tz d t) /\
  (plainYear (getFullYear tz (addMonths tz t 1)) ->
   getMonthGrid tz (addMonths tz (addMonths tz t 1) (-1)) = getMonthGrid tz t /\
   totals tz d (addMonths tz (addMonths tz t 1) (-1)) = totals tz d t).
Proof.
  intros Hplain.
  assert (Hsame : forall u u', getFullYear tz u = getFullYear tz u' ->
                               getMonth tz u = getMonth tz u' ->
            getMonthGrid tz u = getMonthGrid tz u' /\
            (forall L, daysPresentFor tz d L u = daysPresentFor tz d L u') /\
            totals tz d u = totals tz d u').
  { intros u u' Hy Hm.
    assert (Hs : startOfMonth tz u = startOfMonth tz u')
      by (unfold startOfMonth; rewrite Hy, Hm; reflexivity).
    assert (He : endOfMonth tz u = endOfMonth tz u')
      by (unfold endOfMonth; rewrite Hy, Hm; reflexivity).
    assert (Hd : forall L, daysPresentFor tz d L u = daysPresentFor tz d L u')
      by (intros L; unfold daysPresentFor; rewrite Hs, He; reflexivity).
    split; [| split; [exact Hd |]].
    - unfold getMonthGrid, monthCells. rewrite Hs, He. reflexivity.
    - unfold totals.
      rewrite (fold_left_ext (accumulate tz d u) (accumulate tz d u')); [reflexivity |].
      intros bc l. unfold accumulate. rewrite Hd. reflexivity. }
  intros Hy Hm. destruct (Hsame t t' Hy Hm) as (G & D & T).
  split; [exact G |]. split; [exact D |]. split; [exact T |].
  destruct (startOfMonth_fields tz t Hplain) as (Sy & Sm & _).
  destruct (Hsame (startOfMonth tz t) t Sy Sm) as (G' & _ & T').
  split; intros Hstep; rewrite addMonths_add by assumption.
  - change (-1 + 1) with 0. rewrite addMonths_zero. split; assumption.
  - change (1 + -1) with 0. rewrite addMonths_zero. split; assumption.
Qed.

Lemma views_depend_on_month_witness :
  totals 330 scenario (newDate 330 2024 2 17) = totals 330 scenario (march2024 330).
Proof.
  assert (P : plainYear (getFullYear 330 (newDate 330 2024 2 17)))
    by (right; vm_compute; reflexivity).
  assert (Hy : getFullYear 330 (newDate 330 2024 2 17) = getFullYear 330 (march2024 330))
    by (vm_compute; reflexivity).
  assert (Hm : getMonth 330 (newDate 330 2024 2 17) = getMonth 330 (march2024 330))
    by (vm_compute; reflexivity).
  exact (proj1 (proj2 (proj2 (views_depend_on_month 330 (newDate 330 2024 2 17)
                                (march2024 330) scenario P Hy Hm)))).
Defined.

(* ================================================================== *)
(** * Rows, keys and references *)
(* ================================================================== *)

(** ** More on the grid, the keys and the references *)



(** X21. The key [toYMD] prints for a local midnight names that day only at
    or west of Greenwich: for a valid date whose year is taken as given and
    whose UTC year lies in 0..9999
    it is [yyyy-mm-dd] of the date when the zone offset is zero or negative,
    and the key of the day before, a different key, when the offset is
    positive. *)
Theorem toYMD_of_local_midnight (tz y m d : Z) :
  0 <= m < 12 -> 1 <= d <= daysInMonth y m ->
  plainYear y -> 0 <= YearFromDay (MakeDay y m d - 1) -> y <= 9999 ->
  (-1440 < tz <= 0 -> toYMD (newDate tz y m d) = ymd y m d) /\
  (0 < tz <= 1440 ->
     toYMD (newDate tz y m d) = dayKey (MakeDay y m d - 1) /\
     toYMD (newDate tz y m d) <> ymd y m d).
Proof.
  intros Hm Hd Hplain Hlo Hhi.
  destruct (civil_of_MakeDay y m d Hm Hd) as (Hy & _).
  pose proof (YearFromDay_le (MakeDay y m d - 1) (MakeDay y m d) ltac:(lia)) as Hle.
  pose proof (fullYear_plain y Hplain) as Hfull.
  split.
  - intros Htz. rewrite toYMD_dayKey; rewrite utcDay_newDate_west by exact Htz;
      rewrite Hfull.
    + apply dayKey_MakeDay; assumption.
    + lia.
  - intros Htz.
    assert (E : toYMD (newDate tz y m d) = dayKey (MakeDay y m d - 1)).
    { rewrite toYMD_dayKey; rewrite utcDay_newDate_east by exact Htz; rewrite Hfull;
        [reflexivity | lia]. }
    split; [exact E |]. rewrite E, <- (dayKey_MakeDay y m d Hm Hd). intros Heq.
    pose proof (dayKey_compare_lt (MakeDay y m d - 1) (MakeDay y m d)) as C.
    rewrite Heq, string_compare_refl in C.
    assert (Hne : Eq <> Lt) by discriminate. apply Hne, C; lia.
Qed.

Lemma toYMD_of_local_midnight_witness :
  toYMD (newDate (-300) 2024 2 1) = ymd 2024 2 1 /\
  toYMD (newDate 330 2024 2 1) <> ymd 2024 2 1.
Proof.
  assert (H1 : 0 <= 2 < 12) by lia.
  assert (H2 : 1 <= 1 <= daysInMonth 2024 2) by (vm_compute; split; discriminate).
  assert (H0 : plainYear 2024) by (right; lia).
  assert (H3 : 0 <= YearFromDay (MakeDay 2024 2 1 - 1)) by (vm_compute; discriminate).
  assert (H4 : 2024 <= 9999) by lia.
  split.
  - apply (proj1 (toYMD_of_local_midnight (-300) 2024 2 1 H1 H2 H0 H3 H4)). lia.
  - apply (proj2 (toYMD_of_local_midnight 330 2024 2 1 H1 H2 H0 H3 H4)). lia.
Defined.

(** X22. The adds keep references valid as long as they name an existing
    parent: adding a contractor never breaks a reference; adding a labourer
    keeps every labourer's contractor existing when the selected contractor
    id is a contractor's; setting attendance keeps every record's labourer
    existing when the labourer id is a labourer's. *)
Theorem adds_keep_references (d : AppData) :
  (labourRefsValid d ->
     (forall n o r t, labourRefsValid (onAddContractor n o r t d)) /\
     (forall L D p, labourRefsValid (setAttendance L D p d)) /\
     (forall c n rate r t, In c (map Contractor.id (contractors d)) ->
        labourRefsValid (onAddLabour c n rate r t d))) /\
  (attendanceRefsValid d ->
     (forall n o r t, attendanceRefsValid (onAddContractor n o r t d)) /\
     (forall c n rate r t, attendanceRefsValid (onAddLabour c n rate r t d)) /\
     (forall L D p, In L (map Labour.id (labours d)) ->
        attendanceRefsValid (setAttendance L D p d))).
Proof.
  unfold labourRefsValid, attendanceRefsValid. split; intros H; repeat split.
  - intros n o r t l Hl. unfold onAddContractor in *.
    destruct (trim n =? "")%string; [apply H, Hl |].
    cbn in *. rewrite map_app. apply in_or_app. left. apply H, Hl.
  - intros L D p l Hl. apply H, Hl.
  - intros c n rate r t Hc l Hl. unfold onAddLabour in *.
    destruct ((c =? "")%string || (trim n =? "")%string
              || negb (Number_isFinite rate) || leZero rate)%bool; [apply H, Hl |].
    destruct rate; try (apply H, Hl).
    cbn in Hl |- *. apply in_app_or in Hl. destruct Hl as [Hl | [<- | []]].
    + apply H, Hl.
    + exact Hc.
  - intros n o r t a Ha. rewrite onAddContractor_attendance in Ha.
    unfold onAddContractor. destruct (trim n =? "")%string; apply H, Ha.
  - intros c n rate r t a Ha. rewrite onAddLabour_attendance in Ha.
    specialize (H a Ha). unfold onAddLabour.
    destruct ((c =? "")%string || (trim n =? "")%string
              || negb (Number_isFinite rate) || leZero rate)%bool; [exact H |].
    destruct rate; try exact H.
    cbn. rewrite map_app. apply in_or_app. left. exact H.
  - intros L D p HL a Ha.
    destruct (hasRecordId_dec (attendanceId L D) d) as [E | E].
    + rewrite (setAttendance_existing _ _ _ _ E) in *. cbn in *.
      apply in_map_iff in Ha. destruct Ha as (a0 & <- & Hin).
      unfold replacePresent. destruct (AttendanceRecord.id a0 =? _)%string;
        cbn [withPresent AttendanceRecord.labourId]; apply H, Hin.
    + rewrite (setAttendance_fresh _ _ _ _ E) in *. cbn in *.
      apply in_app_or in Ha. destruct Ha as [Ha | [<- | []]]; [apply H, Ha | exact HL].
Qed.

Lemma adds_keep_references_witness :
  labourRefsValid scenario /\ attendanceRefsValid scenario.
Proof.
  unfold scenario.
  set (d1 := onAddContractor "Ravi Plumbing" "" "p0" "m0" initialData).
  set (d2 := onAddLabour "ctr_p0_m0" "Suresh" (Finite (800 # 1)) "p1" "m1" d1).
  set (d3 := setAttendance "lab_p1_m1" "2024-03-05" true d2).
  assert (L0 : labourRefsValid initialData) by (intros l []).
  assert (A0 : attendanceRefsValid initialData) by (intros a []).
  assert (L1 : labourRefsValid d1) by apply (adds_keep_references initialData), L0.
  assert (A1 : attendanceRefsValid d1) by apply (adds_keep_references initialData), A0.
  assert (L2 : labourRefsValid d2).
  { apply (adds_keep_references d1); [exact L1 | left; reflexivity]. }
  assert (A2 : attendanceRefsValid d2) by apply (adds_keep_references d1), A1.
  assert (L3 : labourRefsValid d3) by apply (adds_keep_references d2), L2.
  assert (A3 : attendanceRefsValid d3).
  { apply (adds_keep_references d2); [exact A2 | left; reflexivity]. }
  split.
  - apply (adds_keep_references d3), L3.
  - apply (adds_keep_references d3); [exact A3 | left; reflexivity].
Defined.

(** X23. After a labourer is removed their days present are zero in every
    month and every other labourer's days are what they were. *)
Theorem daysPresentFor_after_removeLabour (tz : Z) (L : string) (d : AppData)
    (month : Date) :
  daysPresentFor tz (removeLabour L d) L month = 0 /\
  (forall L', L' <> L ->
     daysPresentFor tz (removeLabour L d) L' month = daysPresentFor tz d L' month).
Proof.
  unfold daysPresentFor, removeLabour. cbn [attendance]. split.
  - match goal with |- Z.of_nat (length ?l) = 0 => replace l with (@nil AttendanceRecord.t) end;
      [reflexivity |].
    symmetry. induction (attendance d) as [| a l IH]; [reflexivity |]. cbn.
    destruct (String.eqb_spec (AttendanceRecord.labourId a) L) as [E | E]; cbn;
      [exact IH |].
    unfold inMonthRange at 1.
    destruct (String.eqb_spec (AttendanceRecord.labourId a) L); [contradiction |].
    exact IH.
  - intros L' Hne. do 2 f_equal. apply filter_absorb. intros a _ Ha.
    unfold inMonthRange in Ha. rewrite !andb_true_iff in Ha.
    destruct Ha as (((Hid & _) & _) & _). apply String.eqb_eq in Hid.
    apply negb_true_iff, String.eqb_neq. congruence.
Qed.

Lemma daysPresentFor_after_removeLabour_witness :
  daysPresentFor 0 (removeLabour "lab_zz_m9" scenario) "lab_p1_m1" (march2024 0) =
  daysPresentFor 0 scenario "lab_p1_m1" (march2024 0).
Proof.
  apply (daysPresentFor_after_removeLabour 0 "lab_zz_m9" scenario (march2024 0)).
  discriminate.
Defined.

Lemma colon_separated_inj (L L' D D' : string) :
  noColon L = true -> noColon L' = true ->
  (L ++ ":" ++ D = L' ++ ":" ++ D')%string -> L = L' /\ D = D'.
Proof.
  revert L'. induction L as [| c r IH]; intros [| c' r']; cbn; intros Hr Hr' H.
  - injection H as H. auto.
  - injection H as Hc _. subst c'. cbn in Hr'. discriminate.
  - injection H as Hc _. subst c. cbn in Hr. discriminate.
  - injection H as Hc H. subst c'.
    apply andb_true_iff in Hr, Hr'.
    destruct (IH r' (proj2 Hr) (proj2 Hr') H) as [-> ->]. auto.
Qed.

(** X24. A composite attendance id names one labourer and one day, as long
    as labourer ids contain no colon: two such labourer ids with their date
    keys give the same id only when both the labourer and the day are the
    same, so setting attendance for one pair never touches what another pair
    reads. *)
Theorem attendanceId_names_one_pair (L D L' D' : string) (p : bool) (d : AppData) :
  noColon L = true -> noColon L' = true ->
  (attendanceId L D = attendanceId L' D' -> L = L' /\ D = D') /\
  (L <> L' \/ D <> D' ->
     presentAt (setAttendance L D p d) L' D' = presentAt d L' D').
Proof.
  intros HL HL'.
  assert (Hinj : attendanceId L D = attendanceId L' D' -> L = L' /\ D = D').
  { unfold attendanceId. apply colon_separated_inj; assumption. }
  split; [exact Hinj |].
  intros Hne. unfold presentAt.
  assert (Hid : attendanceId L' D' <> attendanceId L D).
  { intros E. destruct (Hinj (eq_sym E)) as [E1 E2]. destruct Hne; contradiction. }
  destruct (hasRecordId_dec (attendanceId L D) d) as [H | H].
  - rewrite (setAttendance_existing _ _ _ _ H). cbn [attendance].
    rewrite find_hasId_replacePresent.
    destruct (find (hasId (attendanceId L' D')) (attendance d)) as [a |] eqn:E;
      [| reflexivity].
    apply find_some in E. destruct E as [_ E]. unfold hasId in E.
    apply String.eqb_eq in E. cbn. unfold replacePresent.
    destruct (String.eqb_spec (AttendanceRecord.id a) (attendanceId L D)) as [E' | _];
      [congruence | reflexivity].
  - rewrite (setAttendance_fresh _ _ _ _ H). cbn [attendance].
    destruct (find (hasId (attendanceId L' D')) (attendance d)) as [a |] eqn:E.
    + rewrite (find_app_some _ _ _ _ E). reflexivity.
    + rewrite find_app_none by exact E. cbn. unfold hasId. cbn.
      destruct (String.eqb_spec (attendanceId L D) (attendanceId L' D')) as [E' | _];
        [congruence | reflexivity].
Qed.

Lemma attendanceId_names_one_pair_witness :
  presentAt (setAttendance "lab_p1_m1" "2024-03-06" true scenario)
            "lab_p1_m1" "2024-03-05" = true.
Proof.
  rewrite (proj2 (attendanceId_names_one_pair "lab_p1_m1" "2024-03-06"
                    "lab_p1_m1" "2024-03-05" true scenario eq_refl eq_refl)).
  - reflexivity.
  - right. discriminate.
Defined.
